(** * AI Calendar Assistant: the notification decision engine of [main.py]

    A shallow embedding of the functions of [src/main.py] that decide
    notifications, and theorems about them:

    - [parse_duration]                      (main.py, lines 161-178)
    - [load_timetable] (per entry)          (lines 186-188)
    - [get_current_active_timetable_entry]  (lines 199-226)
    - [get_llm_response]                    (lines 82-108)
    - [send_notification]                   (lines 139-159)
    - [get_daily_summary]                   (lines 270-283)
    - [get_smart_notification]              (lines 285-379)

    Modelling conventions.

    - A [datetime] is an instant: an integer number of microseconds since
      1970-01-01T00:00 UTC. Python compares and subtracts aware datetimes
      as instants, whatever [tzinfo] each one carries; the wall-clock
      fields of a datetime are its instant plus its UTC offset.
    - The program gives datetimes their offset in two ways, and with the
      [pytz] zones it loads they differ: [datetime.now(TIMEZONE)] carries
      the offset in force at that instant, while
      [datetime.combine(..., tzinfo=TIMEZONE)] and
      [datetime(1970, 1, 1, tzinfo=TIMEZONE)] carry the offset of the zone
      object itself (for a zone of the tz database its local mean time:
      +5:53 for the default Asia/Kolkata, whose clocks run on +5:30). A
      [zone] records both. They coincide for a fixed-offset zone such as
      UTC.
    - [timedelta.total_seconds() / 60] is a float.  Every comparison the
      program makes on such a value is against an integer number of minutes
      or seconds; for the magnitudes involved (below 2^53 microseconds) the
      float comparison agrees with the exact comparison on microseconds,
      which is what the model computes.  [int(x / 60)] truncates toward
      zero: [Z.quot].
    - Strings are sequences of characters with codes 0 to 255, a
      character below 128 being the ASCII character of that code.
      [str.lower], [str.isdigit] and the [\d] of [strptime] are modelled
      on the ASCII range, and [int] without its limit of 4300 digits: the
      model of a function that reads digits ([parse_duration],
      [strptime_HM]) is that of the code on ASCII strings of at most 4300
      characters. On other strings the code does more: [str.isdigit], [\d]
      and [int] know the decimal digits of other scripts, [str.isdigit]
      accepts superscript digits that [int] rejects with [ValueError], and
      [int] raises [ValueError] on a longer number. A statement that would
      not hold of the code on such strings excludes them by a hypothesis
      ([is_ascii], a bound on the length).
    - Python exceptions are values of [exn]; a function that may raise
      returns a [result].  Logging and console output are not modelled. *)

From Stdlib Require Import ZArith List String Ascii Bool Lia Sorted.
From Stdlib Require Import DecimalString.
Import ListNotations.

Local Open Scope string_scope.
Local Open Scope Z_scope.

(* ================================================================= *)
(** ** Python runtime: exceptions, results, decoded JSON values *)

Inductive exn : Type :=
| ValueError
| TypeError
| KeyError
| IndexError
| OverflowError
| UnboundLocalError
| TclError.

Inductive result (A : Type) : Type :=
| Ok (a : A)
| Raise (e : exn).

Arguments Ok {A} a.
Arguments Raise {A} e.

Definition bind {A B : Type} (r : result A) (k : A -> result B) : result B :=
  match r with
  | Ok a => k a
  | Raise e => Raise e
  end.

Notation "x <- c ;; k" := (bind c (fun x => k))
  (at level 61, c at next level, right associativity).

(** The objects [json.loads] / [response.json()] build. Numbers are kept as
    integers: the program never computes with a decoded number. *)
#[warnings="-register-all"]
Inductive pyval : Type :=
| PNone
| PBool (b : bool)
| PNum (n : Z)
| PStr (s : string)
| PList (l : list pyval)
| PDict (kvs : list (string * pyval)).

(** Python truthiness, as used by [if llm_notification:]. *)
Definition truthy (v : pyval) : bool :=
  match v with
  | PNone => false
  | PBool b => b
  | PNum n => negb (n =? 0)
  | PStr s => negb (s =? "")%string
  | PList l => match l with [] => false | _ => true end
  | PDict kvs => match kvs with [] => false | _ => true end
  end.

(* ================================================================= *)
(** ** Strings *)

(** [c.isdigit()], and [\d], for an ASCII character: [0] to [9]. *)
Definition isdigit (c : ascii) : bool :=
  (48 <=? Z.of_N (N_of_ascii c)) && (Z.of_N (N_of_ascii c) <=? 57).

Definition digit_value (c : ascii) : Z := Z.of_N (N_of_ascii c) - 48.

(** [int(num)] on a string of at most 4300 ASCII digits. *)
Fixpoint int_of_digits_from (acc : Z) (s : string) : Z :=
  match s with
  | EmptyString => acc
  | String c s' => int_of_digits_from (acc * 10 + digit_value c) s'
  end.

Definition int_of_digits (s : string) : Z := int_of_digits_from 0 s.

(** [str(n)] for an integer, as an f-string formats it. *)
Definition str_of_Z (n : Z) : string := NilZero.string_of_int (Z.to_int n).

(** [str.lower] on ASCII strings. *)
Definition lower_ascii (c : ascii) : ascii :=
  let n := N_of_ascii c in
  if ((65 <=? n) && (n <=? 90))%N then ascii_of_N (n + 32) else c.

Fixpoint lower (s : string) : string :=
  match s with
  | EmptyString => EmptyString
  | String c s' => String (lower_ascii c) (lower s')
  end.

(** [pat in s] on Python strings: [pat] occurs as a substring of [s]. *)
Fixpoint contains (pat s : string) : bool :=
  prefix pat s ||
  match s with
  | EmptyString => false
  | String _ s' => contains pat s'
  end.

Definition nonempty (s : string) : bool := negb (s =? "")%string.

(* ================================================================= *)
(** ** DurationParser: [parse_duration] *)

(** The body of [for char in duration_str], with the two loop variables
    [total_minutes] and [num].  A character that is neither a digit nor a
    unit leaves both untouched; a unit with an empty [num] does nothing.
    On an ASCII string of at most 4300 characters [int(num)] does not
    raise, and the loop has no error value. *)
Fixpoint parse_duration_loop (s : string) (total_minutes : Z) (num : string) : Z :=
  match s with
  | EmptyString => total_minutes
  | String char s' =>
      if isdigit char then
        parse_duration_loop s' total_minutes (num ++ String char "")
      else if (char =? "h")%char || (char =? "m")%char then
        if nonempty num then
          let value := int_of_digits num in
          if (char =? "h")%char
          then parse_duration_loop s' (total_minutes + value * 60) ""
          else parse_duration_loop s' (total_minutes + value) ""
        else parse_duration_loop s' total_minutes num
      else parse_duration_loop s' total_minutes num
  end.

(** [duration_str] is [None] for an absent value; [not duration_str] holds
    for [None] and for the empty string. *)
Definition parse_duration (duration_str : option string) : option Z :=
  match duration_str with
  | None => None
  | Some s => if nonempty s then Some (parse_duration_loop s 0 "") else None
  end.

(* ================================================================= *)
(** ** Timetable entries and [load_timetable] *)

(** An object of the timetable file. *)
Record raw_entry : Type := mk_raw {
  raw_time : string;
  raw_task : string;
  raw_duration : option string;
  raw_notes : option string
}.

(** An entry after [load_timetable] has added [duration_minutes] and
    defaulted [notes]. *)
Record entry : Type := mk_entry {
  time : string;
  task : string;
  duration_minutes : option Z;
  notes : string
}.

(** [entry.get('duration', '')] then [parse_duration]; [entry.get('notes', '')]. *)
Definition load_entry (r : raw_entry) : entry :=
  {| time := raw_time r;
     task := raw_task r;
     duration_minutes :=
       parse_duration (Some (match raw_duration r with Some d => d | None => "" end));
     notes := match raw_notes r with Some n => n | None => "" end |}.

Definition load_timetable (file : list raw_entry) : list entry :=
  map load_entry file.

(** [sorted(timetable, key=lambda x: x['time'])]: a stable sort that
    compares the time strings with [<], character by character. *)
Fixpoint insert_by_time (x : entry) (l : list entry) : list entry :=
  match l with
  | [] => [x]
  | y :: l' =>
      if String.ltb (time y) (time x) then y :: insert_by_time x l'
      else x :: y :: l'
  end.

Fixpoint sorted_by_time (l : list entry) : list entry :=
  match l with
  | [] => []
  | x :: l' => insert_by_time x (sorted_by_time l')
  end.

(* ================================================================= *)
(** ** Datetimes *)

(** An instant, in microseconds since 1970-01-01T00:00 UTC. *)
Definition datetime : Type := Z.

Definition usec_per_sec : Z := 1000000.
Definition usec_per_min : Z := 60 * usec_per_sec.
Definition usec_per_day : Z := 86400 * usec_per_sec.

(** [TIMEZONE], a [pytz] zone, as far as the program uses it.
    [tzinfo_offset] is the UTC offset of a datetime built with
    [tzinfo=TIMEZONE]; [utcoffset_at t] is the UTC offset of
    [datetime.now(TIMEZONE)] when the instant is [t]. Both are in
    microseconds. *)
Record zone : Type := mk_zone {
  tzinfo_offset : Z;
  utcoffset_at : datetime -> Z
}.

Definition fixed_zone (offset : Z) : zone := mk_zone offset (fun _ => offset).

(** [pytz.timezone('UTC')]. *)
Definition UTC : zone := fixed_zone 0.

(** Indian Standard Time, +5:30. *)
Definition IST : Z := (5 * 60 + 30) * usec_per_min.

(** [pytz.timezone('Asia/Kolkata')], the default of line 64: the zone object
    carries local mean time, +5:53; the clocks have run on +5:30 since
    1945. *)
Definition Asia_Kolkata : zone :=
  mk_zone ((5 * 60 + 53) * usec_per_min) (fun _ => IST).

(** Wall-clock fields, as microseconds counted from 1970-01-01T00:00 on
    that clock. *)
Definition wall_clock (date h m s : Z) : Z :=
  date * usec_per_day + ((h * 60 + m) * 60 + s) * usec_per_sec.

(** The date of wall-clock fields, as a day number counted from
    1970-01-01. *)
Definition date_of (wall : Z) : Z := wall / usec_per_day.

(** The wall-clock fields of [datetime.now(TIMEZONE)] at instant [now], and
    [now_local.date()]. *)
Definition wall_now (tz : zone) (now : datetime) : Z := now + utcoffset_at tz now.

Definition today (tz : zone) (now : datetime) : Z := date_of (wall_now tz now).

(** [datetime.combine(date, time(h, m, s), tzinfo=TIMEZONE)]. *)
Definition combine (tz : zone) (date h m s : Z) : datetime :=
  wall_clock date h m s - tzinfo_offset tz.

(** The instant at which a clock running [offset] ahead of UTC shows the
    given date and time. *)
Definition at_clock (offset date h m s : Z) : datetime :=
  wall_clock date h m s - offset.

(** [datetime.min] and [datetime.max]: 0001-01-01T00:00 and
    9999-12-31T23:59:59.999999 (day ordinals 1 and 3652059; 1970-01-01 has
    ordinal 719163). *)
Definition datetime_min : Z := (1 - 719163) * usec_per_day.
Definition datetime_max : Z := (3652059 - 719163) * usec_per_day + (usec_per_day - 1).

(** [timedelta(minutes=n)], in microseconds: [OverflowError] when the
    normalised number of days leaves [-999999999, 999999999]. *)
Definition timedelta_minutes (n : Z) : result Z :=
  if (-999999999 <=? n / 1440) && (n / 1440 <=? 999999999)
  then Ok (n * usec_per_min) else Raise OverflowError.

(** [dt + delta] on a datetime whose UTC offset is [offset]; the result
    keeps the offset. [OverflowError] when its wall-clock fields leave the
    datetime range. *)
Definition datetime_add (offset : Z) (t : datetime) (delta : Z) : result datetime :=
  let r := t + delta in
  if (datetime_min <=? r + offset) && (r + offset <=? datetime_max)
  then Ok r else Raise OverflowError.

(** [dt + timedelta(minutes=n)] for a datetime built with [tzinfo=TIMEZONE]. *)
Definition add_minutes (tz : zone) (t : datetime) (n : Z) : result datetime :=
  delta <- timedelta_minutes n ;; datetime_add (tzinfo_offset tz) t delta.

(** [now_local - timedelta(minutes=n)]. *)
Definition sub_minutes (tz : zone) (now : datetime) (n : Z) : result datetime :=
  delta <- timedelta_minutes n ;; datetime_add (utcoffset_at tz now) now (- delta).

(** [datetime.datetime.strptime(s, '%H:%M').time()] as (hour, minute).
    The format compiles to the regular expression
    [(2[0-3]|[0-1]\d|\d):([0-5]\d|\d)], and the whole string must be
    consumed; anything else is a [ValueError]. So the hour and the minute
    may have one digit: "9:5" is 09:05. [\d] is taken on the ASCII range
    (see the conventions). *)
Definition minute_of (s : string) : result Z :=
  match s with
  | String m1 EmptyString =>
      if isdigit m1 then Ok (digit_value m1) else Raise ValueError
  | String m1 (String m2 EmptyString) =>
      if isdigit m1 && (digit_value m1 <=? 5) && isdigit m2
      then Ok (digit_value m1 * 10 + digit_value m2)
      else Raise ValueError
  | _ => Raise ValueError
  end.

Definition strptime_HM (s : string) : result (Z * Z) :=
  match s with
  | String h1 (String c2 rest) =>
      if isdigit h1 then
        if (c2 =? ":")%char then
          m <- minute_of rest ;; Ok (digit_value h1, m)
        else
          match rest with
          | String c3 rest' =>
              if isdigit c2 && (digit_value h1 * 10 + digit_value c2 <=? 23)
                 && (c3 =? ":")%char
              then m <- minute_of rest' ;; Ok (digit_value h1 * 10 + digit_value c2, m)
              else Raise ValueError
          | EmptyString => Raise ValueError
          end
      else Raise ValueError
  | _ => Raise ValueError
  end.

(** The start of an entry: its time of day on the date of [current_time],
    with [tzinfo=TIMEZONE] (lines 205-206 and 303-304). *)
Definition task_start (tz : zone) (current_time : datetime) (e : entry)
  : result datetime :=
  hm <- strptime_HM (time e) ;;
  Ok (combine tz (today tz current_time) (fst hm) (snd hm) 0).

(* ================================================================= *)
(** ** TimetableIndex: [get_current_active_timetable_entry] *)

(** The end of the window of entry [e], whose successor in sorted order is
    [next]: [if duration_minutes:] holds for a present, non-zero duration. *)
Definition window_end (tz : zone) (current_time task_dt : datetime) (e : entry)
           (next : option entry) : result datetime :=
  match duration_minutes e with
  | Some d =>
      if negb (d =? 0) then add_minutes tz task_dt d
      else match next with
           | Some n => task_start tz current_time n
           | None => Ok (combine tz (today tz current_time) 23 59 59)
           end
  | None =>
      match next with
      | Some n => task_start tz current_time n
      | None => Ok (combine tz (today tz current_time) 23 59 59)
      end
  end.

(** [datetime.datetime.combine(current_time.date(), sorted_timetable[i-1]['time'], ...)]
    on line 223 passes the time STRING of the previous entry where a
    [datetime.time] is required: the call raises [TypeError] whatever the
    string is. *)
Definition combine_with_time_string (date : Z) (time_str : string) : result datetime :=
  Raise TypeError.

(** [timedelta(minutes=sorted_timetable[i-1].get('duration_minutes', 0))]:
    the key is present after [load_timetable], so the default is not used
    and a [None] value is a [TypeError]. *)
Definition timedelta_minutes_of (e : entry) : result Z :=
  match duration_minutes e with
  | Some d => timedelta_minutes d
  | None => Raise TypeError
  end.

(** The loop [for i, entry in enumerate(sorted_timetable)]. [prev] is
    [sorted_timetable[i-1]] ([None] when [i = 0]) and [l] the entries from
    index [i] on, so that [sorted_timetable[i+1]] is the second element of
    [l]. *)
Fixpoint active_loop (tz : zone) (current_time : datetime) (prev : option entry)
         (l : list entry) : result (option entry) :=
  match l with
  | [] => Ok None
  | e :: rest =>
      task_dt <- task_start tz current_time e ;;
      end_dt <- window_end tz current_time task_dt e (hd_error rest) ;;
      if (task_dt <=? current_time) && (current_time <=? end_dt) then
        Ok (Some e)
      else
        match prev with
        | Some p =>
            if current_time =? task_dt then
              prev_dt <- combine_with_time_string (today tz current_time) (time p) ;;
              delta <- timedelta_minutes_of p ;;
              prev_end <- datetime_add (tzinfo_offset tz) prev_dt delta ;;
              if current_time >? prev_end then Ok (Some p)
              else active_loop tz current_time (Some e) rest
            else active_loop tz current_time (Some e) rest
        | None => active_loop tz current_time (Some e) rest
        end
  end.

(** [tz] is the global [TIMEZONE]. *)
Definition get_current_active_timetable_entry (tz : zone) (timetable : list entry)
           (current_time : datetime) : result (option entry) :=
  active_loop tz current_time None (sorted_by_time timetable).

(* ================================================================= *)
(** ** LLMClient: [get_llm_response] *)

(** What one [requests.post] attempt, [raise_for_status] and
    [response.json()] come to: a [requests.exceptions.RequestException]
    (connection error, timeout, a non-2xx status) carrying its text
    [str(e)], or a decoded body. *)
Inductive attempt_outcome : Type :=
| RequestException (msg : string)
| Response (body : pyval).

(** [v[key]] for a string key. A decoded object keeps the last of several
    equal keys. *)
Fixpoint dict_get (kvs : list (string * pyval)) (key : string) : option pyval :=
  match kvs with
  | [] => None
  | (k, v) :: kvs' =>
      match dict_get kvs' key with
      | Some v' => Some v'
      | None => if (k =? key)%string then Some v else None
      end
  end.

Definition getitem_key (v : pyval) (key : string) : result pyval :=
  match v with
  | PDict kvs =>
      match dict_get kvs key with
      | Some x => Ok x
      | None => Raise KeyError
      end
  | _ => Raise TypeError
  end.

(** [v[0]]. The keys of a decoded object are strings, so [0] is never one. *)
Definition getitem_0 (v : pyval) : result pyval :=
  match v with
  | PList (x :: _) => Ok x
  | PList [] => Raise IndexError
  | PStr (String c _) => Ok (PStr (String c ""))
  | PStr EmptyString => Raise IndexError
  | PDict _ => Raise KeyError
  | _ => Raise TypeError
  end.

(** [content[:50]], evaluated for the log line before [content] is
    returned: defined on strings and lists only. *)
Definition check_sliceable (v : pyval) : result unit :=
  match v with
  | PStr _ | PList _ => Ok tt
  | _ => Raise TypeError
  end.

(** [response.json()['choices'][0]['message']['content']], then the log
    line, then [return content]. *)
Definition extract_content (body : pyval) : result pyval :=
  choices <- getitem_key body "choices" ;;
  first <- getitem_0 choices ;;
  message <- getitem_key first "message" ;;
  content <- getitem_key message "content" ;;
  _ <- check_sliceable content ;;
  Ok content.

Definition api_error_text (msg : string) : string :=
  ("API error: " ++ substring 0 50 msg ++ "... (Check app.log for details)")%string.

Definition llm_unavailable_text : string :=
  "LLM unavailable: Set OPENROUTER_API_KEY in .env.".

Definition max_retries_text : string := "Max retries reached for LLM API.".

(** [for attempt in range(retries)], with [remaining = retries - attempt]
    iterations left. Only [RequestException] is caught. The first component
    of the result lists the [time.sleep] delays, in seconds. *)
Fixpoint llm_attempts (transport : nat -> attempt_outcome) (retries attempt remaining : nat)
  : list Z * result pyval :=
  match remaining with
  | O => ([], Ok (PStr max_retries_text))
  | S remaining' =>
      match transport attempt with
      | Response body => ([], extract_content body)
      | RequestException msg =>
          if (attempt <? retries - 1)%nat then
            let '(delays, r) := llm_attempts transport retries (S attempt) remaining' in
            (2 ^ Z.of_nat attempt :: delays, r)
          else ([], Ok (PStr (api_error_text msg)))
      end
  end.

(** [OPENROUTER_API_KEY] is [None] when the variable is unset; [not key]
    also holds for the empty string. [transport prompt n] is the outcome of
    attempt number [n] for this prompt. *)
Definition get_llm_response (OPENROUTER_API_KEY : option string)
           (transport : string -> nat -> attempt_outcome)
           (prompt : string) (retries : nat) : list Z * result pyval :=
  match OPENROUTER_API_KEY with
  | Some key =>
      if nonempty key then llm_attempts (transport prompt) retries 0 retries
      else ([], Ok (PStr llm_unavailable_text))
  | None => ([], Ok (PStr llm_unavailable_text))
  end.

(* ================================================================= *)
(** ** Notifier: [send_notification] *)

Definition max_message_length : nat := 200.

(** Lines 142-146 on a string: a message longer than 200 characters is cut
    to its first 200 and followed by three dots. *)
Definition display_text (message : string) : string :=
  if (max_message_length <? String.length message)%nat
  then (substring 0 max_message_length message ++ "...")%string
  else message.

(** [len(d)] for a decoded object: the number of distinct keys. *)
Definition dict_len (kvs : list (string * pyval)) : nat :=
  List.length (nodup string_dec (map fst kvs)).

(** Where the notification ends up: [notification.notify], or the console
    line of the [except] branch when the desktop call failed. *)
Inductive delivery : Type :=
| Desktop (title : string) (message : pyval)
| ConsoleFallback (title : string) (message : pyval).

(** [len(message)] and the cut of lines 144-146, which are outside the
    [try]: a value without a length raises [TypeError], and so does a list
    of more than 200 items (a string cannot be added to the slice) and an
    object of more than 200 keys (it cannot be sliced; from Python 3.12 on
    the exception of that last case is a [KeyError]). *)
Definition cut_message (message : pyval) : result pyval :=
  match message with
  | PStr s => Ok (PStr (display_text s))
  | PList l =>
      if (max_message_length <? List.length l)%nat then Raise TypeError
      else Ok message
  | PDict kvs =>
      if (max_message_length <? dict_len kvs)%nat then Raise TypeError
      else Ok message
  | _ => Raise TypeError
  end.

(** [desktop_ok] says whether the calls inside the [try] went through. *)
Definition send_notification (title : string) (message : pyval)
           (desktop_ok : bool) : result delivery :=
  shown <- cut_message message ;;
  Ok (if desktop_ok then Desktop title shown else ConsoleFallback title shown).

(* ================================================================= *)
(** ** NotificationPolicy: [get_smart_notification] *)

(** The values read from [config.json]. *)
Record config : Type := mk_config {
  NOTIFICATION_INTERVAL_SECONDS : Z;
  MINUTES_BEFORE_TASK : Z;
  GRACE_MINUTES_AFTER_START : Z;
  TIMEZONE : zone
}.

(** The defaults of lines 61-63 with the zone [tz]. *)
Definition config_in (tz : zone) : config :=
  {| NOTIFICATION_INTERVAL_SECONDS := 1800;
     MINUTES_BEFORE_TASK := 15;
     GRACE_MINUTES_AFTER_START := 2;
     TIMEZONE := tz |}.

(** The configuration of a [config.json] that sets none of the four keys
    (lines 61-64). *)
Definition default_config : config := config_in Asia_Kolkata.

(** Module-level constants (lines 76-77). *)
Definition max_sleep_notifications : Z := 2.
Definition sleep_follow_up_interval : Z := 15.

(** The two globals [get_smart_notification] writes. *)
Record State : Type := mk_state {
  last_in_task_notification_time : datetime;
  sleep_notification_count : Z
}.

(** [datetime.datetime(1970, 1, 1, tzinfo=TIMEZONE)] and [0] (lines 74-75). *)
Definition initial_state (tz : zone) : State :=
  {| last_in_task_notification_time := combine tz 0 0 0 0;
     sleep_notification_count := 0 |}.

(** The locals the loop of lines 302-312 leaves behind. [task_dt_local] is
    the start of the LAST entry the loop looked at: the upcoming entry when
    the loop broke, the last entry of the sorted timetable otherwise. *)
Record upcoming_scan : Type := mk_scan {
  upcoming_task_entry : option entry;
  task_dt_local : option datetime;
  time_until_upcoming_task_minutes : Z;
  is_upcoming_task_just_started : bool
}.

Fixpoint upcoming_loop (cfg : config) (now_local : datetime)
         (last_dt : option datetime) (l : list entry) : result upcoming_scan :=
  match l with
  | [] => Ok (mk_scan None last_dt 0 false)
  | e :: rest =>
      dt <- task_start (TIMEZONE cfg) now_local e ;;
      horizon <- sub_minutes (TIMEZONE cfg) now_local (GRACE_MINUTES_AFTER_START cfg) ;;
      if dt >=? horizon then
        Ok (mk_scan (Some e) (Some dt)
              (Z.quot (dt - now_local) usec_per_min)
              ((now_local >=? dt) &&
               (now_local - dt <=? GRACE_MINUTES_AFTER_START cfg * 60 * usec_per_sec)))
      else upcoming_loop cfg now_local (Some dt) rest
  end.

(** The outcome of the branches of lines 318-366, before any text is
    composed. *)
Inductive Decision : Type :=
| NoNotification
| Immediate (title message : string)
| Compose (title prompt : string).

Definition newline : string := String (ascii_of_nat 10) EmptyString.

Definition no_specific_task : string := "no specific task".

Definition current_active_task_name_of (active : option entry) : string :=
  match active with
  | Some e => task e
  | None => no_specific_task
  end.

(** [if current_active_task_entry and current_active_task_name.lower() != "no specific task"]. *)
Definition active_arm (active : option entry) : bool :=
  match active with
  | Some e => negb (lower (task e) =? no_specific_task)%string
  | None => false
  end.

Definition read_task_dt_local (scan : upcoming_scan) : result datetime :=
  match task_dt_local scan with
  | Some dt => Ok dt
  | None => Raise UnboundLocalError
  end.

(** The condition of lines 321-323 on [time_since_task_start], in
    microseconds. *)
Definition sleep_fires (now_local dt : datetime) (count : Z) : bool :=
  (now_local - dt <=? 0) ||
  ((sleep_follow_up_interval * usec_per_min <=? now_local - dt) && (count =? 1)).

Definition sleep_title : string := "Current Task: Sleep".
Definition sleep_message : string :=
  "It's sleep time! Time to unwind and rest for tomorrow!".

Definition check_in_prompt (name notes : string) : string :=
  ("Current task: '" ++ name ++ "' with notes: '" ++ notes ++ "'." ++ newline ++
   "Provide a concise (under 100 chars), encouraging check-in for this task.")%string.

Definition time_description_of (now_local dt : datetime) (scan : upcoming_scan) : string :=
  let display_minutes := time_until_upcoming_task_minutes scan in
  if is_upcoming_task_just_started scan then
    let minutes_passed := Z.quot (now_local - dt) usec_per_min in
    if minutes_passed =? 0 then "just started"
    else ("started " ++ str_of_Z minutes_passed ++ " minutes ago")%string
  else if display_minutes =? 0 then "is starting now"
  else ("in " ++ str_of_Z (Z.abs display_minutes) ++ " minutes")%string.

Definition upcoming_prompt (name : string) (u : entry) (time_description : string) : string :=
  ("Current task: '" ++ name ++ "'." ++ newline ++
   "Next task: '" ++ task u ++ "' at " ++ time u ++ " (" ++ time_description ++
   ") with notes: '" ++ notes u ++ "'." ++ newline ++
   "Generate a concise (under 100 chars), encouraging notification to transition to the next task.")%string.

(** The condition of lines 341-342; [timedelta(minutes=MINUTES_BEFORE_TASK)]
    is built only when the left comparison holds. *)
Definition upcoming_due (cfg : config) (now_local dt : datetime)
           (scan : upcoming_scan) : result bool :=
  if 0 <=? dt - now_local then
    lead <- timedelta_minutes (MINUTES_BEFORE_TASK cfg) ;;
    Ok ((dt - now_local <=? lead) || is_upcoming_task_just_started scan)
  else Ok (is_upcoming_task_just_started scan).

(** Lines 318-366. The sleep arm sends its notification itself and
    returns; it is the [Immediate] decision with [sleep_title]. *)
Definition decide (cfg : config) (st : State) (now_local : datetime)
           (active : option entry) (scan : upcoming_scan) : result (State * Decision) :=
  let name := current_active_task_name_of active in
  if active_arm active then
    if (lower name =? "sleep")%string &&
       (sleep_notification_count st <? max_sleep_notifications) then
      dt <- read_task_dt_local scan ;;
      if sleep_fires now_local dt (sleep_notification_count st) then
        Ok ({| last_in_task_notification_time := now_local;
               sleep_notification_count := sleep_notification_count st + 1 |},
            Immediate sleep_title sleep_message)
      else Ok (st, NoNotification)
    else if NOTIFICATION_INTERVAL_SECONDS cfg * usec_per_sec
              <=? now_local - last_in_task_notification_time st then
      Ok ({| last_in_task_notification_time := now_local;
             sleep_notification_count := sleep_notification_count st |},
          Compose ("Check-in: " ++ name)%string
                  (check_in_prompt name (match active with Some e => notes e | None => "" end)))
    else Ok (st, NoNotification)
  else
    match upcoming_task_entry scan with
    | None => Ok (st, NoNotification)
    | Some u =>
        dt <- read_task_dt_local scan ;;
        due <- upcoming_due cfg now_local dt scan ;;
        if due then
          if (lower (task u) =? "sleep")%string then
            if 0 <? time_until_upcoming_task_minutes scan then
              Ok (st, Immediate "Time for Bed!"
                        ("Scheduled to sleep in " ++
                         str_of_Z (time_until_upcoming_task_minutes scan) ++
                         " minutes. Wind down!")%string)
            else
              Ok (st, Immediate "Time for Bed!"
                        ("It's past " ++ time u ++ ". Time to rest!")%string)
          else
            Ok (st, Compose ("Upcoming: " ++ task u)%string
                      (upcoming_prompt name u (time_description_of now_local dt scan)))
        else Ok (st, NoNotification)
    end.

(** A call of [send_notification]: the title and the message it is given. *)
Definition notification : Type := (string * pyval)%type.

Definition prepare_for_text (u : entry) : string :=
  ("Prepare for: " ++ task u ++ " at " ++ time u ++ ".")%string.

Definition doing_text (name : string) : string :=
  ("Doing: " ++ name ++ ". Keep it up!")%string.

(** [send_notification(title, message)] as the policy calls it: the call,
    and the exception it raises when the message cannot be measured or cut
    (lines 144-146); whatever the desktop channel does is caught inside. *)
Definition call_send_notification (title : string) (message : pyval)
  : list notification * option exn :=
  ([(title, message)],
   match cut_message message with
   | Ok _ => None
   | Raise e => Some e
   end).

(** Lines 368-379: the calls of [send_notification] made for a decision,
    and the exception raised, if any. [llm] is [get_llm_response] for this
    call. *)
Definition deliver (d : Decision) (name : string) (upcoming : option entry)
           (llm : string -> result pyval) : list notification * option exn :=
  match d with
  | NoNotification => ([], None)
  | Immediate title message => call_send_notification title (PStr message)
  | Compose title prompt =>
      match llm prompt with
      | Raise e => ([], Some e)
      | Ok llm_notification =>
          if truthy llm_notification then call_send_notification title llm_notification
          else if contains "Upcoming:" title then
            match upcoming with
            | Some u => call_send_notification title (PStr (prepare_for_text u))
            | None => ([], Some TypeError)
            end
          else if contains "Check-in:" title then
            call_send_notification title (PStr (doing_text name))
          else ([], None)
      end
  end.

(** One call of [get_smart_notification]: the state it leaves, the calls
    of [send_notification] it made (each with the message it was handed),
    and the exception that ended it, if any. A call of [send_notification]
    that raises is the last one of the list. *)
Record outcome : Type := mk_outcome {
  final_state : State;
  sent : list notification;
  raised : option exn
}.

(** Lines 294-312: the active entry, then the scan for the upcoming one. *)
Definition resolve (cfg : config) (timetable : list entry) (now_local : datetime)
  : result (option entry * upcoming_scan) :=
  active <- get_current_active_timetable_entry (TIMEZONE cfg) timetable now_local ;;
  scan <- upcoming_loop cfg now_local None (sorted_by_time timetable) ;;
  Ok (active, scan).

(** Lines 294-366: one policy evaluation up to its decision. *)
Definition policy_evaluation (cfg : config) (timetable : list entry) (st : State)
           (now_local : datetime) : result (State * Decision) :=
  r <- resolve cfg timetable now_local ;;
  decide cfg st now_local (fst r) (snd r).

Definition get_smart_notification (cfg : config) (timetable : list entry)
           (llm : string -> result pyval) (st : State) (now_local : datetime) : outcome :=
  match timetable with
  | [] => mk_outcome st [] None
  | _ :: _ =>
      match resolve cfg timetable now_local with
      | Raise e => mk_outcome st [] (Some e)
      | Ok (active, scan) =>
          match decide cfg st now_local active scan with
          | Raise e => mk_outcome st [] (Some e)
          | Ok (st', d) =>
              let '(notifications, exc) :=
                deliver d (current_active_task_name_of active)
                        (upcoming_task_entry scan) llm in
              mk_outcome st' notifications exc
          end
      end
  end.

(** A process lifetime: the calls made one after the other, each at its
    own instant and with its own composition results. *)
Record tick : Type := mk_tick {
  tick_now : datetime;
  tick_llm : string -> result pyval
}.

Fixpoint run (cfg : config) (timetable : list entry) (st : State)
         (ticks : list tick) : State * list notification :=
  match ticks with
  | [] => (st, [])
  | t :: ticks' =>
      let o := get_smart_notification cfg timetable (tick_llm t) st (tick_now t) in
      let '(st', later) := run cfg timetable (final_state o) ticks' in
      (st', (sent o ++ later)%list)
  end.

Definition has_title (title : string) (n : notification) : bool :=
  (fst n =? title)%string.

Definition count_title (title : string) (l : list notification) : Z :=
  Z.of_nat (List.length (filter (has_title title) l)).

(** The title a decision carries. *)
Definition decision_title (d : Decision) : option string :=
  match d with
  | NoNotification => None
  | Immediate title _ => Some title
  | Compose title _ => Some title
  end.

(** A compose decision of the check-in branch. *)
Definition is_check_in (d : Decision) : bool :=
  match d with
  | Compose title _ => prefix "Check-in: " title
  | _ => false
  end.


Fixpoint all_chars (p : ascii -> bool) (s : string) : bool :=
  match s with
  | EmptyString => true
  | String c s' => p c && all_chars p s'
  end.

Definition is_unit (c : ascii) : bool := (c =? "h")%char || (c =? "m")%char.

(** The composition client had nothing to return but a diagnostic: the key
    is missing, or every one of the [retries] attempts ended in a
    [RequestException]. *)
Definition key_missing (key : option string) : Prop :=
  key = None \/ key = Some "".

Definition composition_failed (key : option string)
           (transport : nat -> attempt_outcome) (retries : nat) : Prop :=
  key_missing key \/
  forall n, (n < retries)%nat -> exists msg, transport n = RequestException msg.

Definition is_diagnostic (text : string) : Prop :=
  text = llm_unavailable_text \/ text = max_retries_text \/
  exists msg, text = api_error_text msg.

(** The order [sorted] leaves two neighbours in: the later one's time
    string is not smaller than the earlier one's. *)
Definition time_le (x y : entry) : Prop := String.ltb (time y) (time x) = false.

(** The timetable of the end-to-end scenario. *)
Definition scenario_timetable : list entry :=
  load_timetable
    [mk_raw "08:00" "Wake" None None;
     mk_raw "09:00" "Work" (Some "4h") None;
     mk_raw "13:00" "Sleep" None None].

(* ================================================================= *)
(** ** Journal: [get_daily_summary] *)

(** An element of [current_day_journal_entries] appended on line 281: the
    text "Daily Journal (<time>):", a line break, the summary and a line
    break. [stamp] is [now_local.strftime('%I:%M %p')]. *)
Record daily_journal_entry : Type := mk_daily {
  stamp : string;
  summary_of : pyval
}.

Definition daily_summary_prompt (date_text day_summary : string) : string :=
  ("Today is " ++ date_text ++ ". Based on this user-provided summary: '" ++
   day_summary ++ "', " ++
   "write a natural, casual journal entry in past tense summarizing my day. Include personal reflections " ++
   "or deviations (e.g., breaks, unexpected events) and notes from tasks if available. Keep it under 500 characters. Avoid motivational phrases.")%string.

Definition no_summary_text (day_summary : string) : string :=
  ("Today, I recorded no detailed summary: " ++ day_summary ++ ".")%string.

(** Lines 270-283. [date_text] and [time_text] are the two [strftime]
    results for [now_local]; [journal] is [current_day_journal_entries];
    [update_gui_journal] is what the call of line 282 comes to: it returns,
    or it raises (a [TclError] once the window is destroyed, as at the call
    of line 448, which follows [root.destroy()]). The result is the journal
    the call leaves and the value it returns or the exception it raises. *)
Definition get_daily_summary (llm : string -> result pyval)
           (update_gui_journal : result unit)
           (date_text time_text : string) (journal : list daily_journal_entry)
           (day_summary : string) : list daily_journal_entry * result pyval :=
  match llm (daily_summary_prompt date_text day_summary) with
  | Raise e => (journal, Raise e)
  | Ok llm_summary =>
      let summary :=
        if truthy llm_summary then llm_summary
        else PStr (no_summary_text day_summary) in
      let journal' := (journal ++ [mk_daily time_text summary])%list in
      (journal', _ <- update_gui_journal ;; Ok summary)
  end.

(* ================================================================= *)
(** ** Predicates used by the statements on whole timetables *)

(** [if duration_minutes:] fails for the entry. *)
Definition no_duration (e : entry) : Prop :=
  duration_minutes e = None \/ duration_minutes e = Some 0.

(** The time string is a zero-padded HH:MM that [strptime] accepts. *)
Definition zero_padded (s : string) : Prop :=
  String.length s = 5%nat /\ exists hm, strptime_HM s = Ok hm.

(** Minutes since midnight of a time string; [-1] when it does not parse. *)
Definition minute_of_day (s : string) : Z :=
  match strptime_HM s with
  | Ok (h, m) => h * 60 + m
  | Raise _ => -1
  end.

(** The powers of two [time.sleep] is called with before attempts
    [first+1 .. first+n]. *)
Definition backoff_delays (first n : nat) : list Z :=
  map (fun a => 2 ^ Z.of_nat a) (seq first n).

(** A decoded body with a string at [choices[0].message.content]. *)
Definition well_formed_body (body : pyval) (content : string) : Prop :=
  exists kvs first rest_choices msg,
    body = PDict kvs /\
    dict_get kvs "choices" = Some (PList (PDict first :: rest_choices)) /\
    dict_get first "message" = Some (PDict msg) /\
    dict_get msg "content" = Some (PStr content).

(** The characters of a string that satisfy [p], in order. *)
Fixpoint filter_chars (p : ascii -> bool) (s : string) : string :=
  match s with
  | EmptyString => EmptyString
  | String c s' => if p c then String c (filter_chars p s') else filter_chars p s'
  end.

(** The characters [parse_duration] reacts to. *)
Definition duration_char (c : ascii) : bool := isdigit c || is_unit c.

(** The minutes a parsed duration stands for. *)
Definition value_or_zero (o : option Z) : Z :=
  match o with Some v => v | None => 0 end.

(** The time of day of [x] is not after that of [y]. *)
Definition earlier_or_same (x y : entry) : Prop :=
  minute_of_day (time x) <= minute_of_day (time y).

(** The start of [e] on the date of [now], for a time string that parses. *)
Definition start_of_day_minute (tz : zone) (now : datetime) (e : entry) : datetime :=
  today tz now * usec_per_day + minute_of_day (time e) * usec_per_min
  - tzinfo_offset tz.

(** How far the instants the code builds with [tzinfo=TIMEZONE] lie before
    the same times of day on the clock of [now]: 0 for a fixed-offset zone,
    23 minutes for [Asia_Kolkata]. *)
Definition skew (tz : zone) (now : datetime) : Z :=
  tzinfo_offset tz - utcoffset_at tz now.

(** The test of line 219 holds for entry [e], whose successor in the
    sorted timetable is [next]. *)
Definition in_window (tz : zone) (now : datetime) (e : entry)
           (next : option entry) : Prop :=
  exists start stop,
    task_start tz now e = Ok start /\
    window_end tz now start e next = Ok stop /\
    start <= now <= stop.

(** Every character of the string is an ASCII character. *)
Definition is_ascii (s : string) : Prop :=
  all_chars (fun c => (N_of_ascii c <? 128)%N) s = true.

(* ================================================================= *)
(** * Theorems *)

(** ** DurationParser *)

Lemma parse_duration_loop_no_unit s : forall total num,
  all_chars (fun c => negb (is_unit c)) s = true ->
  parse_duration_loop s total num = total.
Proof.
  induction s as [|c s IH]; intros total num H; simpl in *; [reflexivity|].
  apply andb_true_iff in H. destruct H as [Hc Hs].
  unfold is_unit in Hc. apply negb_true_iff in Hc.
  destruct (isdigit c); [now apply IH|].
  rewrite Hc. now apply IH.
Qed.

Lemma parse_duration_loop_digits d : forall total num,
  all_chars isdigit d = true -> parse_duration_loop d total num = total.
Proof.
  induction d as [|c d IH]; intros total num H; simpl in *; [reflexivity|].
  apply andb_true_iff in H. destruct H as [Hc Hd].
  rewrite Hc. now apply IH.
Qed.

Lemma parse_duration_loop_trailing_digits s d : forall total num,
  all_chars isdigit d = true ->
  parse_duration_loop (s ++ d) total num = parse_duration_loop s total num.
Proof.
  induction s as [|c s IH]; intros total num H.
  - simpl. now apply parse_duration_loop_digits.
  - simpl. destruct (isdigit c); [now apply IH|].
    destruct ((c =? "h")%char || (c =? "m")%char); [|now apply IH].
    destruct (nonempty num); [|now apply IH].
    destruct (c =? "h")%char; now apply IH.
Qed.

Lemma nonempty_true_iff s : nonempty s = true <-> s <> "".
Proof.
  unfold nonempty. rewrite negb_true_iff. apply String.eqb_neq.
Qed.

Lemma nonempty_append s d : nonempty s = true -> nonempty (s ++ d) = true.
Proof. destruct s; [discriminate|reflexivity]. Qed.

(** C10. A non-empty duration string with no [h] and no [m] parses to 0,
    not to "no duration"; digits at the end of a string, with no unit after
    them, add nothing to the total; and the only inputs that give "no
    duration" are the absent one and the empty string. *)
Theorem parse_duration_unitless (s d : string) :
  s <> "" ->
  all_chars isdigit d = true ->
  (all_chars (fun c => negb (is_unit c)) s = true -> parse_duration (Some s) = Some 0)
  /\ parse_duration (Some (s ++ d)) = parse_duration (Some s)
  /\ (forall o, parse_duration o = None <-> o = None \/ o = Some "").
Proof.
  intros Hs Hd. apply nonempty_true_iff in Hs.
  split; [|split].
  - intros Hu. unfold parse_duration. rewrite Hs.
    now rewrite parse_duration_loop_no_unit.
  - unfold parse_duration. rewrite Hs, (nonempty_append _ _ Hs).
    now rewrite parse_duration_loop_trailing_digits.
  - intros [o|]; simpl.
    + destruct (nonempty o) eqn:E.
      * split; [discriminate|]. intros [H|H]; [discriminate|].
        injection H as ->. discriminate.
      * split; [|reflexivity]. intros _. right. f_equal.
        unfold nonempty in E. apply negb_false_iff in E.
        now apply String.eqb_eq.
    + split; auto.
Qed.

Lemma parse_duration_unitless_witness :
  "90" <> "" /\ all_chars isdigit "7" = true /\
  parse_duration (Some "90") = Some 0 /\
  parse_duration (Some "907") = parse_duration (Some "90").
Proof.
  assert (H1 : "90" <> "") by discriminate.
  assert (H2 : all_chars isdigit "7" = true) by reflexivity.
  destruct (parse_duration_unitless "90" "7" H1 H2) as [A [B _]].
  split; [exact H1|]. split; [exact H2|]. split; [exact (A eq_refl) | exact B].
Defined.

(** ** NotificationPolicy: what a decision does to the state *)

Lemma prefix_append p s : prefix p (p ++ s) = true.
Proof.
  induction p as [|c p IH]; simpl.
  - now destruct s.
  - destruct (ascii_dec c c) as [_|N]; [exact IH | now elim N].
Qed.

Ltac case_result :=
  match goal with
  | H : bind ?r _ = Ok _ |- _ =>
      let E := fresh "E" in destruct r eqn:E; simpl in H; [|discriminate]
  | H : Ok _ = Ok _ |- _ => injection H as <- <-
  | H : Raise _ = Ok _ |- _ => discriminate
  | H : (if ?b then _ else _) = Ok _ |- _ =>
      let E := fresh "E" in destruct b eqn:E
  end.

(** The three ways [decide] can return: the sleep notification, a
    check-in, or a decision that leaves the state alone. *)
Lemma decide_inv cfg st now active scan st' d :
  decide cfg st now active scan = Ok (st', d) ->
  (d = Immediate sleep_title sleep_message /\
   sleep_notification_count st < max_sleep_notifications /\
   st' = mk_state now (sleep_notification_count st + 1))
  \/
  (is_check_in d = true /\
   NOTIFICATION_INTERVAL_SECONDS cfg * usec_per_sec
     <= now - last_in_task_notification_time st /\
   st' = mk_state now (sleep_notification_count st))
  \/
  (st' = st /\ is_check_in d = false /\ decision_title d <> Some sleep_title).
Proof.
  unfold decide. intros H.
  destruct (active_arm active) eqn:Harm.
  - destruct (_ && _) eqn:Hsleep in H.
    + apply andb_true_iff in Hsleep. destruct Hsleep as [_ Hlt].
      apply Z.ltb_lt in Hlt.
      repeat case_result.
      * left. auto.
      * right. right. split; [reflexivity | split; [reflexivity | discriminate]].
    + repeat case_result.
      * right. left. apply Z.leb_le in E.
        split; [exact (prefix_append _ _) | auto].
      * right. right. split; [reflexivity | split; [reflexivity | discriminate]].
  - right. right.
    destruct (upcoming_task_entry scan) as [u|].
    + repeat case_result; (split; [reflexivity | split; [reflexivity | cbn; discriminate]]).
    + case_result. split; [reflexivity | split; [reflexivity | discriminate]].
Qed.

Lemma deliver_title d name up llm n :
  In n (fst (deliver d name up llm)) -> decision_title d = Some (fst n).
Proof.
  destruct d as [|title message|title prompt]; simpl.
  - intros [].
  - intros [<-|[]]. reflexivity.
  - destruct (llm prompt) as [v|e]; [|intros []].
    destruct (truthy v); [intros [<-|[]]; reflexivity|].
    destruct (contains "Upcoming:" title).
    + destruct up; [intros [<-|[]]; reflexivity | intros []].
    + destruct (contains "Check-in:" title);
        [intros [<-|[]]; reflexivity | intros []].
Qed.

Lemma count_title_absent title l :
  (forall n, In n l -> fst n <> title) -> count_title title l = 0.
Proof.
  unfold count_title. induction l as [|n l IH]; intros H; [reflexivity|].
  simpl. unfold has_title at 1.
  destruct (String.eqb_spec (fst n) title) as [E|_].
  - exfalso. exact (H n (or_introl eq_refl) E).
  - apply IH. intros m Hm. apply H. now right.
Qed.

Lemma count_title_app title l1 l2 :
  count_title title (l1 ++ l2) = count_title title l1 + count_title title l2.
Proof.
  unfold count_title. rewrite filter_app, length_app. lia.
Qed.

(** One call: the counter grows by the number of sleep notifications
    sent, at most one is sent, and one is sent only below the maximum. *)
Lemma get_smart_notification_sleep_count cfg tt llm st now :
  let o := get_smart_notification cfg tt llm st now in
  sleep_notification_count (final_state o)
    = sleep_notification_count st + count_title sleep_title (sent o)
  /\ (count_title sleep_title (sent o) = 0 \/
      (count_title sleep_title (sent o) = 1 /\
       sleep_notification_count st < max_sleep_notifications)).
Proof.
  assert (Hz : count_title sleep_title [] = 0) by reflexivity.
  unfold get_smart_notification.
  destruct tt as [|e0 tt0]; [simpl; lia|].
  destruct (resolve cfg (e0 :: tt0) now) as [[active scan]|e]; [|simpl; lia].
  destruct (decide cfg st now active scan) as [[st' d]|e] eqn:Hd; [|simpl; lia].
  pose proof (deliver_title d (current_active_task_name_of active)
                (upcoming_task_entry scan) llm) as Ht.
  destruct (deliver d _ _ llm) as [ns exc] eqn:Hdel. simpl in *.
  destruct (decide_inv _ _ _ _ _ _ _ Hd) as [[-> [Hlt ->]]|[[Hc [_ ->]]|[-> [_ Hne]]]].
  - simpl in Hdel. injection Hdel as <- <-. cbn. lia.
  - rewrite count_title_absent.
    + simpl. lia.
    + intros n Hn E. apply Ht in Hn. rewrite E in Hn.
      destruct d; try discriminate. injection Hn as ->. discriminate.
  - rewrite count_title_absent.
    + lia.
    + intros n Hn E. apply Ht in Hn. rewrite E in Hn. contradiction.
Qed.

Lemma run_sleep_count cfg tt ticks : forall st,
  sleep_notification_count st <= max_sleep_notifications ->
  let r := run cfg tt st ticks in
  sleep_notification_count (fst r)
    = sleep_notification_count st + count_title sleep_title (snd r)
  /\ sleep_notification_count (fst r) <= max_sleep_notifications.
Proof.
  induction ticks as [|t ticks IH]; intros st Hst; simpl.
  - change (count_title sleep_title []) with 0. lia.
  - destruct (get_smart_notification_sleep_count cfg tt (tick_llm t) st (tick_now t))
      as [Hc Hg].
    set (o := get_smart_notification cfg tt (tick_llm t) st (tick_now t)) in *.
    assert (Ho : sleep_notification_count (final_state o) <= max_sleep_notifications)
      by lia.
    specialize (IH (final_state o) Ho). simpl in IH.
    destruct (run cfg tt (final_state o) ticks) as [st' later]. simpl in *.
    rewrite count_title_app. lia.
Qed.

(** C2. Over any sequence of policy evaluations of one process, started in
    the initial state, the notification titled "Current Task: Sleep" is
    sent at most [max_sleep_notifications] times, and the counter
    [sleep_notification_count] always equals the number of times it was
    sent: every emission adds one and nothing resets it. *)
Theorem sleep_notifications_bounded cfg tt (ticks : list tick) :
  count_title sleep_title (snd (run cfg tt (initial_state (TIMEZONE cfg)) ticks))
    <= max_sleep_notifications
  /\ sleep_notification_count (fst (run cfg tt (initial_state (TIMEZONE cfg)) ticks))
     = count_title sleep_title (snd (run cfg tt (initial_state (TIMEZONE cfg)) ticks)).
Proof.
  assert (H0 : sleep_notification_count (initial_state (TIMEZONE cfg))
               <= max_sleep_notifications)
    by (simpl; unfold max_sleep_notifications; lia).
  destruct (run_sleep_count cfg tt ticks (initial_state (TIMEZONE cfg)) H0) as [Hc Hm].
  simpl in Hc. lia.
Qed.

(** C3. A check-in compose decision is taken only when at least
    [NOTIFICATION_INTERVAL_SECONDS] have passed since
    [last_in_task_notification_time]; taking it sets that time to [now], and
    an evaluation that follows at an instant less than the interval after
    [now] takes no check-in decision. *)
Theorem check_in_throttle cfg tt st now st' d now' st'' d' :
  policy_evaluation cfg tt st now = Ok (st', d) ->
  is_check_in d = true ->
  now' - now < NOTIFICATION_INTERVAL_SECONDS cfg * usec_per_sec ->
  policy_evaluation cfg tt st' now' = Ok (st'', d') ->
  NOTIFICATION_INTERVAL_SECONDS cfg * usec_per_sec
    <= now - last_in_task_notification_time st
  /\ last_in_task_notification_time st' = now
  /\ is_check_in d' = false.
Proof.
  unfold policy_evaluation. intros H1 Hc Hlt H2.
  destruct (resolve cfg tt now) as [[a1 s1]|]; [|discriminate].
  destruct (resolve cfg tt now') as [[a2 s2]|]; [|discriminate].
  simpl in H1, H2.
  apply decide_inv in H1. apply decide_inv in H2.
  destruct H1 as [[-> _]|[[_ [Hge ->]]|[_ [Hn _]]]];
    [discriminate Hc | | congruence].
  split; [exact Hge|]. split; [reflexivity|].
  destruct H2 as [[-> _]|[[_ [Hge' _]]|[_ [Hn' _]]]];
    [reflexivity | simpl in Hge'; lia | exact Hn'].
Qed.

Lemma check_in_throttle_witness :
  let tz := TIMEZONE default_config in
  let tt := load_timetable [mk_raw "08:00" "Wake" None None] in
  let now := combine tz 20000 8 30 0 in
  let st1 := mk_state now 0 in
  let d1 := Compose "Check-in: Wake" (check_in_prompt "Wake" "") in
  policy_evaluation default_config tt (initial_state tz) now = Ok (st1, d1)
  /\ policy_evaluation default_config tt st1 (now + usec_per_min) = Ok (st1, NoNotification)
  /\ (NOTIFICATION_INTERVAL_SECONDS default_config * usec_per_sec
        <= now - last_in_task_notification_time (initial_state tz)
      /\ last_in_task_notification_time st1 = now
      /\ is_check_in NoNotification = false).
Proof.
  intros tz tt now st1 d1.
  assert (H1 : policy_evaluation default_config tt (initial_state tz) now = Ok (st1, d1))
    by (vm_compute; reflexivity).
  assert (H2 : policy_evaluation default_config tt st1 (now + usec_per_min)
               = Ok (st1, NoNotification)) by (vm_compute; reflexivity).
  split; [exact H1|]. split; [exact H2|].
  apply (check_in_throttle default_config tt (initial_state tz) now st1 d1
           (now + usec_per_min) st1 NoNotification H1).
  - reflexivity.
  - vm_compute. reflexivity.
  - exact H2.
Defined.

(** ** TimetableIndex: the carry-over arm of line 223 *)

(** Whenever resolution returns an entry, [now] lies in the window of that
    very entry: the arm that would return the previous entry raises
    [TypeError] each time its guard is reached, so it never returns. *)
Lemma active_loop_in_window tz now l : forall prev e,
  active_loop tz now prev l = Ok (Some e) ->
  exists start stop next,
    task_start tz now e = Ok start /\
    window_end tz now start e next = Ok stop /\
    start <= now <= stop.
Proof.
  induction l as [|x rest IH]; intros prev e H; simpl in H; [discriminate|].
  destruct (task_start tz now x) as [start|] eqn:Hs; simpl in H; [|discriminate].
  destruct (window_end tz now start x (hd_error rest)) as [stop|] eqn:He;
    simpl in H; [|discriminate].
  destruct ((start <=? now) && (now <=? stop)) eqn:Hw.
  - injection H as <-. apply andb_true_iff in Hw. destruct Hw as [A B].
    apply Z.leb_le in A. apply Z.leb_le in B.
    exists start, stop, (hd_error rest). auto.
  - destruct prev as [p|]; [|now apply IH in H].
    destruct (now =? start); [discriminate H | now apply IH in H].
Qed.

(** C4 (the code at the failing input). Wake starts at 08:00 and lasts 30
    minutes, Work starts at 09:00. At 09:00 exactly, [now] equals the start
    of Work and strictly exceeds the start of Wake plus its duration, and
    resolution returns Work, the entry at index 1, not Wake. This is so in
    the zone UTC, where the start the code computes for Work is 09:00 on the
    clock, and in the default zone Asia/Kolkata, where it is 08:37 on the
    clock. *)
Theorem carry_over_returns_current_entry :
  Forall (fun tz =>
    let wake := load_entry (mk_raw "08:00" "Wake" (Some "30m") None) in
    let work := load_entry (mk_raw "09:00" "Work" None None) in
    let now := combine tz 20000 9 0 0 in
    sorted_by_time [wake; work] = [wake; work]
    /\ task_start tz now work = Ok now
    /\ (prev_start <- task_start tz now wake ;; add_minutes tz prev_start 30)
         = Ok (combine tz 20000 8 30 0)
    /\ combine tz 20000 8 30 0 < now
    /\ get_current_active_timetable_entry tz [wake; work] now = Ok (Some work))
  [UTC; Asia_Kolkata].
Proof.
  repeat constructor; vm_compute; reflexivity.
Qed.

(** ** NotificationPolicy: the start the sleep branch measures from *)

(** C5 (the code at the failing input). Sleep starts at 00:00 and Wake at
    07:00. At 03:00 the active entry is Sleep, 180 minutes after its own
    start, and the counter is 0: measured from the start of Sleep the
    condition of lines 321-323 is false. The code measures from
    [task_dt_local], the start of Wake, four hours ahead, and sends the
    sleep notification. This is so in the zone UTC, where the instant is
    03:00 on the clock, and in the default zone Asia/Kolkata
    ([config_in Asia_Kolkata] is the default configuration), where all
    three instants the code computes are 23 minutes earlier on the clock
    (02:37, between the starts 23:37 and 06:37). *)
Theorem sleep_elapsed_measured_from_scan_start (llm : string -> result pyval) :
  Forall (fun tz =>
    let sleep := load_entry (mk_raw "00:00" "Sleep" None None) in
    let wake := load_entry (mk_raw "07:00" "Wake" None None) in
    let now := combine tz 20000 3 0 0 in
    get_current_active_timetable_entry tz [sleep; wake] now = Ok (Some sleep)
    /\ task_start tz now sleep = Ok (combine tz 20000 0 0 0)
    /\ sleep_fires now (combine tz 20000 0 0 0)
         (sleep_notification_count (initial_state tz)) = false
    /\ (scan <- upcoming_loop (config_in tz) now None (sorted_by_time [sleep; wake]) ;;
        Ok (task_dt_local scan)) = Ok (Some (combine tz 20000 7 0 0))
    /\ sent (get_smart_notification (config_in tz) [sleep; wake] llm
               (initial_state tz) now)
       = [(sleep_title, PStr sleep_message)])
  [UTC; Asia_Kolkata].
Proof.
  repeat constructor; vm_compute; reflexivity.
Qed.

(** ** LLMClient: a response body of another shape *)

(** C9 (the code at the failing input). The API key is set and the first
    attempt gets a 2xx response whose JSON body is the empty object:
    [response.json()['choices']] raises [KeyError], which
    [except requests.exceptions.RequestException] does not catch, so the
    call raises to its caller. A body whose [content] is a JSON array is
    returned as a list, not a string. *)
Theorem get_llm_response_raises_on_malformed_body (prompt : string) :
  get_llm_response (Some "sk-key") (fun _ _ => Response (PDict [])) prompt 3
    = ([], Raise KeyError)
  /\ get_llm_response (Some "sk-key")
       (fun _ _ => Response
          (PDict [("choices",
                   PList [PDict [("message", PDict [("content", PList [PNum 1])])]])]))
       prompt 3
     = ([], Ok (PList [PNum 1])).
Proof.
  split; reflexivity.
Qed.

(** ** Evaluating the two loops on a given day *)



(** An instant the code builds with [tzinfo=TIMEZONE], read on the clock
    of [now]. *)
Lemma combine_on_clock tz now day h m s :
  now = combine tz day h m s <->
  wall_now tz now = wall_clock day h m s - skew tz now.
Proof.
  unfold combine, wall_now, skew. lia.
Qed.



Lemma upcoming_loop_hit cfg now last e rest dt horizon :
  task_start (TIMEZONE cfg) now e = Ok dt ->
  sub_minutes (TIMEZONE cfg) now (GRACE_MINUTES_AFTER_START cfg) = Ok horizon ->
  horizon <= dt ->
  upcoming_loop cfg now last (e :: rest)
  = Ok (mk_scan (Some e) (Some dt) (Z.quot (dt - now) usec_per_min)
          ((now >=? dt) &&
           (now - dt <=? GRACE_MINUTES_AFTER_START cfg * 60 * usec_per_sec))).
Proof.
  intros Hs Hh Hle. simpl. rewrite Hs. simpl. rewrite Hh. simpl.
  apply Z.ge_le_iff in Hle. apply Z.geb_ge in Hle. now rewrite Hle.
Qed.

Lemma upcoming_loop_skip cfg now last e rest dt horizon :
  task_start (TIMEZONE cfg) now e = Ok dt ->
  sub_minutes (TIMEZONE cfg) now (GRACE_MINUTES_AFTER_START cfg) = Ok horizon ->
  dt < horizon ->
  upcoming_loop cfg now last (e :: rest) = upcoming_loop cfg now (Some dt) rest.
Proof.
  intros Hs Hh Hlt. simpl. rewrite Hs. simpl. rewrite Hh. simpl.
  destruct (dt >=? horizon) eqn:E; [|reflexivity].
  apply Z.geb_ge in E. lia.
Qed.



(** ** The end-to-end scenario of the Wake / Work / Sleep timetable *)





(** ** NotificationPolicy: the upcoming-task branch *)









(** ** LLMClient and the text of a composed notification *)

Lemma llm_attempts_all_failed transport retries remaining : forall attempt,
  (attempt + remaining = retries)%nat ->
  (forall n, (n < retries)%nat -> exists msg, transport n = RequestException msg) ->
  exists text,
    snd (llm_attempts transport retries attempt remaining) = Ok (PStr text)
    /\ is_diagnostic text.
Proof.
  induction remaining as [|k IH]; intros attempt Hsum Hall; simpl.
  - exists max_retries_text. split; [reflexivity|]. right. now left.
  - destruct (Hall attempt) as [msg Hmsg]; [lia|]. rewrite Hmsg.
    destruct (attempt <? retries - 1)%nat.
    + destruct (IH (S attempt)) as [text [Ht Hd]]; [lia | exact Hall |].
      destruct (llm_attempts transport retries (S attempt) k) as [delays r].
      exists text. auto.
    + exists (api_error_text msg). split; [reflexivity|]. right. right. now exists msg.
Qed.

Lemma get_llm_response_failed key transport prompt retries :
  composition_failed key (transport prompt) retries ->
  exists text,
    snd (get_llm_response key transport prompt retries) = Ok (PStr text)
    /\ is_diagnostic text.
Proof.
  assert (Hu : exists text,
             @Ok pyval (PStr llm_unavailable_text) = Ok (PStr text) /\ is_diagnostic text)
    by (exists llm_unavailable_text; split; [reflexivity | now left]).
  intros [[->| ->]|Hall]; [exact Hu | exact Hu |].
  unfold get_llm_response. destruct key as [k|]; [|exact Hu].
  destruct (nonempty k); [|exact Hu].
  apply llm_attempts_all_failed; [lia | exact Hall].
Qed.

Lemma diagnostic_truthy text : is_diagnostic text -> truthy (PStr text) = true.
Proof.
  intros [->|[->|[msg ->]]]; reflexivity.
Qed.

(** A compose decision comes from the check-in branch or from the
    upcoming-task branch, and its title says which. *)
Lemma decide_compose_inv cfg st now active scan st' title prompt :
  decide cfg st now active scan = Ok (st', Compose title prompt) ->
  (active_arm active = true /\
   title = ("Check-in: " ++ current_active_task_name_of active)%string)
  \/ (exists u, upcoming_task_entry scan = Some u /\
                title = ("Upcoming: " ++ task u)%string).
Proof.
  unfold decide. intros H.
  destruct (active_arm active).
  - left. split; [reflexivity|].
    destruct (_ && _) in H.
    + destruct (read_task_dt_local scan); simpl in H; [|discriminate].
      destruct (sleep_fires _ _ _); discriminate.
    + destruct (_ <=? _) in H; [|discriminate]. now injection H as _ <- _.
  - right. destruct (upcoming_task_entry scan) as [u|]; [|discriminate].
    exists u. split; [reflexivity|].
    destruct (read_task_dt_local scan); simpl in H; [|discriminate].
    destruct (upcoming_due _ _ _ _) as [[|]|]; simpl in H; try discriminate.
    destruct (lower (task u) =? "sleep")%string.
    + destruct (0 <? _); discriminate.
    + now injection H as _ <- _.
Qed.

Lemma contains_prefix p s : contains p (p ++ s) = true.
Proof.
  destruct p; simpl.
  - now destruct s.
  - destruct (ascii_dec a a) as [_|N]; [|now elim N].
    now rewrite prefix_append.
Qed.

(** C1, as stated, fails: with the API key missing, and with the key set
    and all three attempts timing out, the message handed to the notifier
    is the diagnostic text the composition client returned. *)
Lemma composition_failure_counterexample :
  let tz := TIMEZONE default_config in
  let work := load_entry (mk_raw "09:00" "Work" None None) in
  let now := combine tz 20000 8 50 0 in
  let timeout := fun (_ : string) (_ : nat) => RequestException "Read timed out." in
  sent (get_smart_notification default_config [work]
          (fun p => snd (get_llm_response None timeout p 3)) (initial_state tz) now)
  = [("Upcoming: Work", PStr "LLM unavailable: Set OPENROUTER_API_KEY in .env.")]
  /\ sent (get_smart_notification default_config [work]
             (fun p => snd (get_llm_response (Some "sk-key") timeout p 3))
             (initial_state tz) now)
     = [("Upcoming: Work",
         PStr "API error: Read timed out.... (Check app.log for details)")].
Proof.
  vm_compute. split; reflexivity.
Qed.

Lemma contains_upcoming_in_check_in name :
  contains "Upcoming:" ("Check-in: " ++ name) = contains "Upcoming:" name.
Proof. reflexivity. Qed.

Lemma contains_check_in_title name :
  contains "Check-in:" ("Check-in: " ++ name) = true.
Proof. exact (contains_prefix "Check-in:" (" " ++ name)). Qed.

Lemma contains_upcoming_title name :
  contains "Upcoming:" ("Upcoming: " ++ name) = true.
Proof. exact (contains_prefix "Upcoming:" (" " ++ name)). Qed.

(** C1, amended. When a policy evaluation takes a compose decision, the
    message handed to the notifier is the value the composition client
    returned whenever that value is non-empty. On a composition failure
    (missing API key, or every attempt ended in a request error) the client
    returns a non-empty diagnostic string, and that diagnostic is the
    message. Only an empty result is replaced: by "Prepare for: <task> at
    <time>." under an "Upcoming: " title, and by "Doing: <task>. Keep it
    up!" under a "Check-in: " title whose task name does not contain
    "Upcoming:". *)
Theorem composed_message_is_client_text
        cfg tt key transport retries st now active scan st' title prompt :
  tt <> [] ->
  resolve cfg tt now = Ok (active, scan) ->
  decide cfg st now active scan = Ok (st', Compose title prompt) ->
  let llm := fun p => snd (get_llm_response key transport p retries) in
  let o := get_smart_notification cfg tt llm st now in
  (forall v, llm prompt = Ok v -> truthy v = true -> sent o = [(title, v)])
  /\ (composition_failed key (transport prompt) retries ->
      exists text,
        is_diagnostic text /\ llm prompt = Ok (PStr text) /\
        sent o = [(title, PStr text)])
  /\ (forall v, llm prompt = Ok v -> truthy v = false ->
      (exists u, upcoming_task_entry scan = Some u /\
                 title = ("Upcoming: " ++ task u)%string /\
                 sent o = [(title, PStr (prepare_for_text u))])
      \/ (title = ("Check-in: " ++ current_active_task_name_of active)%string /\
          (contains "Upcoming:" (current_active_task_name_of active) = false ->
           sent o = [(title, PStr (doing_text (current_active_task_name_of active)))]))).
Proof.
  intros Htt Hres Hdec llm o.
  assert (Ho : sent o
               = fst (deliver (Compose title prompt) (current_active_task_name_of active)
                        (upcoming_task_entry scan) llm)).
  { subst o. unfold get_smart_notification.
    destruct tt as [|e0 tt0]; [now elim Htt|].
    rewrite Hres, Hdec. now destruct (deliver _ _ _ llm). }
  assert (HA : forall v, llm prompt = Ok v -> truthy v = true -> sent o = [(title, v)]).
  { intros v Hv Ht. rewrite Ho. simpl. now rewrite Hv, Ht. }
  split; [exact HA|]. split.
  - intros Hfail.
    destruct (get_llm_response_failed _ _ _ _ Hfail) as [text [Ht Hd]].
    exists text. split; [exact Hd|]. split; [exact Ht|].
    apply HA; [exact Ht | now apply diagnostic_truthy].
  - intros v Hv Ht. rewrite Ho. simpl. rewrite Hv, Ht.
    destruct (decide_compose_inv _ _ _ _ _ _ _ _ Hdec) as [[_ ->]|[u [Hu ->]]].
    + right. split; [reflexivity|]. intros Hn.
      rewrite contains_upcoming_in_check_in, Hn.
      now rewrite contains_check_in_title.
    + left. exists u. split; [exact Hu|]. split; [reflexivity|].
      now rewrite contains_upcoming_title, Hu.
Qed.

Lemma composed_message_is_client_text_witness :
  let tz := TIMEZONE default_config in
  let work := load_entry (mk_raw "09:00" "Work" None None) in
  let now := combine tz 20000 8 50 0 in
  let timeout := fun (_ : string) (_ : nat) => RequestException "Read timed out." in
  [work] <> []
  /\ exists text,
       is_diagnostic text /\
       sent (get_smart_notification default_config [work]
               (fun p => snd (get_llm_response (Some "sk-key") timeout p 3))
               (initial_state tz) now)
       = [("Upcoming: Work", PStr text)].
Proof.
  intros tz work now timeout.
  assert (Hne : [work] <> []) by discriminate.
  split; [exact Hne|].
  set (scan := mk_scan (Some work) (Some (combine tz 20000 9 0 0)) 10 false).
  assert (Hres : resolve default_config [work] now = Ok (None, scan))
    by (vm_compute; reflexivity).
  assert (Hdec : decide default_config (initial_state tz) now None scan
                 = Ok (initial_state tz,
                       Compose "Upcoming: Work"
                         (upcoming_prompt no_specific_task work "in 10 minutes")))
    by (vm_compute; reflexivity).
  destruct (composed_message_is_client_text default_config [work] (Some "sk-key")
              timeout 3%nat (initial_state tz) now None scan (initial_state tz) _ _
              Hne Hres Hdec) as [_ [H _]].
  destruct H as [text [Hd [_ Hs]]].
  - right. intros n _. now exists "Read timed out.".
  - exists text. split; [exact Hd | exact Hs].
Defined.

(** ** TimetableIndex: an entry whose time string is not HH:MM *)

Local Open Scope list_scope.

(** [String.compare] is a total order; [sorted] relies on it. *)
Lemma string_compare_not_gt_trans s1 : forall s2 s3,
  String.compare s1 s2 <> Gt -> String.compare s2 s3 <> Gt ->
  String.compare s1 s3 <> Gt.
Proof.
  induction s1 as [|c1 s1 IH]; intros [|c2 s2] [|c3 s3]; simpl;
    try congruence.
  unfold Ascii.compare.
  destruct (N.compare_spec (N_of_ascii c1) (N_of_ascii c2)) as [E12|L12|G12];
    destruct (N.compare_spec (N_of_ascii c2) (N_of_ascii c3)) as [E23|L23|G23];
    destruct (N.compare_spec (N_of_ascii c1) (N_of_ascii c3)) as [E13|L13|G13];
    try congruence; try lia.
  apply IH.
Qed.

Lemma string_ltb_false_iff s1 s2 :
  String.ltb s1 s2 = false <-> String.compare s2 s1 <> Gt.
Proof.
  unfold String.ltb. rewrite (String.compare_antisym s1 s2).
  destruct (String.compare s2 s1); simpl; split; congruence.
Qed.

Lemma string_ltb_asym s1 s2 : String.ltb s1 s2 = true -> String.ltb s2 s1 = false.
Proof.
  unfold String.ltb. rewrite (String.compare_antisym s1 s2).
  destruct (String.compare s2 s1); simpl; congruence.
Qed.

Lemma time_le_trans x y z : time_le x y -> time_le y z -> time_le x z.
Proof.
  unfold time_le. rewrite !string_ltb_false_iff.
  apply string_compare_not_gt_trans.
Qed.

Lemma insert_by_time_hdrel x y l :
  time_le y x -> HdRel time_le y l -> HdRel time_le y (insert_by_time x l).
Proof.
  intros Hyx Hl. destruct l as [|z l]; simpl; [now constructor|].
  destruct (String.ltb (time z) (time x)); constructor; [|exact Hyx].
  now apply HdRel_inv in Hl.
Qed.

Lemma insert_by_time_sorted x l :
  Sorted time_le l -> Sorted time_le (insert_by_time x l).
Proof.
  induction l as [|y l IH]; intros Hs; simpl.
  - repeat constructor.
  - apply Sorted_inv in Hs. destruct Hs as [Hs Hh].
    destruct (String.ltb (time y) (time x)) eqn:E.
    + constructor; [now apply IH|].
      apply insert_by_time_hdrel; [|exact Hh].
      unfold time_le. now apply string_ltb_asym.
    + constructor; [now constructor|]. now constructor.
Qed.

Lemma sorted_by_time_sorted l : Sorted time_le (sorted_by_time l).
Proof.
  induction l as [|x l IH]; simpl; [constructor|].
  now apply insert_by_time_sorted.
Qed.

Lemma insert_by_time_split x l :
  exists pre post, insert_by_time x l = pre ++ x :: post /\ l = pre ++ post.
Proof.
  induction l as [|y l [pre [post [H1 H2]]]]; simpl.
  - now exists [], [].
  - destruct (String.ltb (time y) (time x)).
    + exists (y :: pre), post. simpl. now rewrite H1, H2 at 1.
    + now exists [], (y :: l).
Qed.

(** Inserting into a sorted list goes the same way with and without one
    of its elements. *)
Lemma insert_by_time_remove a b pre : forall post,
  Sorted time_le (pre ++ b :: post) ->
  exists pre' post',
    insert_by_time a (pre ++ b :: post) = pre' ++ b :: post' /\
    insert_by_time a (pre ++ post) = pre' ++ post'.
Proof.
  induction pre as [|y pre IH]; intros post Hs; simpl in *.
  - destruct (String.ltb (time b) (time a)) eqn:E.
    + now exists [], (insert_by_time a post).
    + exists [a], post. split; [reflexivity|].
      destruct post as [|z post]; [reflexivity|]. simpl.
      apply Sorted_inv in Hs. destruct Hs as [_ Hh]. apply HdRel_inv in Hh.
      assert (Haz : time_le a z) by (apply (time_le_trans a b z); assumption).
      unfold time_le in Haz. now rewrite Haz.
  - apply Sorted_inv in Hs. destruct Hs as [Hs _].
    destruct (String.ltb (time y) (time a)).
    + destruct (IH post Hs) as [pre' [post' [H1 H2]]].
      exists (y :: pre'), post'. simpl. now rewrite H1, H2.
    + now exists (a :: y :: pre), post.
Qed.

(** Sorting a timetable with one entry removed is removing that entry from
    the sorted timetable. *)
Lemma sorted_by_time_remove l1 b l2 :
  exists pre post,
    sorted_by_time (l1 ++ b :: l2) = pre ++ b :: post /\
    sorted_by_time (l1 ++ l2) = pre ++ post.
Proof.
  induction l1 as [|a l1 [pre [post [H1 H2]]]]; simpl.
  - apply insert_by_time_split.
  - rewrite H1, H2. apply insert_by_time_remove.
    rewrite <- H1. apply sorted_by_time_sorted.
Qed.

Lemma task_start_malformed tz now bad :
  strptime_HM (time bad) = Raise ValueError -> task_start tz now bad = Raise ValueError.
Proof. unfold task_start. now intros ->. Qed.

(** A window end that was computed although the next entry is malformed
    did not look at the next entry. *)
Lemma window_end_without_next tz now dt e bad next' stop :
  task_start tz now bad = Raise ValueError ->
  window_end tz now dt e (Some bad) = Ok stop ->
  window_end tz now dt e next' = Ok stop.
Proof.
  unfold window_end. intros Hbad.
  destruct (duration_minutes e) as [d|].
  - destruct (negb (d =? 0)); [auto|]. rewrite Hbad. discriminate.
  - rewrite Hbad. discriminate.
Qed.

Lemma active_loop_remove tz now bad pre : forall post prev r,
  task_start tz now bad = Raise ValueError ->
  active_loop tz now prev (pre ++ bad :: post) = Ok r ->
  r <> None /\ active_loop tz now prev (pre ++ post) = Ok r.
Proof.
  induction pre as [|e pre IH]; intros post prev r Hbad H.
  - simpl in H. rewrite Hbad in H. discriminate H.
  - cbn [app active_loop] in *.
    destruct (task_start tz now e) as [dt|]; cbn [bind] in *; [|discriminate].
    destruct (window_end tz now dt e (hd_error (pre ++ bad :: post))) as [stop|] eqn:He;
      cbn [bind] in H; [|discriminate].
    assert (He' : window_end tz now dt e (hd_error (pre ++ post)) = Ok stop).
    { destruct pre as [|y pre]; [|exact He].
      simpl in He. now apply (window_end_without_next tz now dt e bad). }
    rewrite He'. cbn [bind].
    destruct ((dt <=? now) && (now <=? stop)).
    + injection H as <-. split; [discriminate | reflexivity].
    + destruct prev as [p|]; [|now apply IH].
      destruct (now =? dt); [discriminate H | now apply IH].
Qed.

Lemma upcoming_loop_remove cfg now bad pre : forall post last s,
  task_start (TIMEZONE cfg) now bad = Raise ValueError ->
  upcoming_loop cfg now last (pre ++ bad :: post) = Ok s ->
  upcoming_task_entry s <> None /\ upcoming_loop cfg now last (pre ++ post) = Ok s.
Proof.
  induction pre as [|e pre IH]; intros post last s Hbad H.
  - simpl in H. rewrite Hbad in H. discriminate H.
  - cbn [app upcoming_loop] in *.
    destruct (task_start (TIMEZONE cfg) now e) as [dt|]; cbn [bind] in *;
      [|discriminate].
    destruct (sub_minutes (TIMEZONE cfg) now (GRACE_MINUTES_AFTER_START cfg))
      as [horizon|]; cbn [bind] in *; [|discriminate].
    destruct (dt >=? horizon).
    + injection H as <-. split; [discriminate | reflexivity].
    + now apply IH.
Qed.

(** C7, as stated, fails: Work (10:00, no duration) is active at 10:30 in
    the timetable without the entry whose time is "9am"; with that entry,
    which sorts after "10:00", resolution raises [ValueError] when it
    parses "9am" for the end of Work. This is so in the zone UTC and in the
    default zone Asia/Kolkata (where the instant is 10:07 on the clock). *)
Lemma malformed_time_counterexample :
  Forall (fun tz =>
    let bad := load_entry (mk_raw "9am" "Standup" None None) in
    let work := load_entry (mk_raw "10:00" "Work" None None) in
    let now := combine tz 20000 10 30 0 in
    strptime_HM (time bad) = Raise ValueError
    /\ get_current_active_timetable_entry tz [bad; work] now = Raise ValueError
    /\ get_current_active_timetable_entry tz [work] now = Ok (Some work))
  [UTC; Asia_Kolkata].
Proof.
  repeat constructor; vm_compute; reflexivity.
Qed.

(** C7, amended. A time string is accepted by [strptime(s, '%H:%M')] when
    it is an hour from 0 to 23 written with one or two digits, a colon, and
    a minute from 0 to 59 written with one or two digits ("9:5" is accepted
    and means 09:05); every other string is rejected with [ValueError]. For
    every timetable containing an entry whose ASCII time string is
    rejected, the entry is not skipped: resolution never completes with "no
    active entry" (it raises on reaching the rejected string), and it
    returns a result only when an entry is found before the rejected string
    is parsed, which is then the result for the timetable without that
    entry. The same holds for the active and upcoming entries together. *)
Theorem malformed_time_is_not_skipped cfg l1 bad l2 now :
  is_ascii (time bad) ->
  strptime_HM (time bad) = Raise ValueError ->
  get_current_active_timetable_entry (TIMEZONE cfg) (l1 ++ bad :: l2) now <> Ok None
  /\ (forall r,
       get_current_active_timetable_entry (TIMEZONE cfg) (l1 ++ bad :: l2) now = Ok r ->
       get_current_active_timetable_entry (TIMEZONE cfg) (l1 ++ l2) now = Ok r)
  /\ (forall a s,
       resolve cfg (l1 ++ bad :: l2) now = Ok (a, s) ->
       a <> None /\ upcoming_task_entry s <> None /\
       resolve cfg (l1 ++ l2) now = Ok (a, s)).
Proof.
  intros _ Hbad. apply (task_start_malformed (TIMEZONE cfg) now) in Hbad.
  destruct (sorted_by_time_remove l1 bad l2) as [pre [post [H1 H2]]].
  unfold resolve, get_current_active_timetable_entry. rewrite H1, H2.
  split; [|split].
  - intros H. apply (active_loop_remove _ _ _ _ _ _ _ Hbad) in H. now destruct H.
  - intros r H. now apply (active_loop_remove _ _ _ _ _ _ _ Hbad) in H.
  - intros a s H.
    destruct (active_loop (TIMEZONE cfg) now None (pre ++ bad :: post)) as [a'|] eqn:Ha;
      cbn [bind] in H; [|discriminate].
    destruct (upcoming_loop cfg now None (pre ++ bad :: post)) as [s'|] eqn:Hs;
      cbn [bind] in H; [|discriminate].
    injection H as -> ->.
    apply (active_loop_remove _ _ _ _ _ _ _ Hbad) in Ha. destruct Ha as [Hn Ha].
    apply (upcoming_loop_remove _ _ _ _ _ _ _ Hbad) in Hs. destruct Hs as [Hu Hs].
    rewrite Ha, Hs. auto.
Qed.

Lemma malformed_time_is_not_skipped_witness :
  let tz := TIMEZONE default_config in
  let bad := load_entry (mk_raw "9am" "Standup" None None) in
  let work := load_entry (mk_raw "10:00" "Work" (Some "1h") None) in
  let now := combine tz 20000 10 30 0 in
  is_ascii (time bad)
  /\ strptime_HM (time bad) = Raise ValueError
  /\ strptime_HM "9:5" = Ok (9, 5)
  /\ get_current_active_timetable_entry tz ([] ++ bad :: [work]) now = Ok (Some work)
  /\ get_current_active_timetable_entry tz ([] ++ [work]) now = Ok (Some work).
Proof.
  intros tz bad work now.
  assert (Hascii : is_ascii (time bad)) by reflexivity.
  assert (Hbad : strptime_HM (time bad) = Raise ValueError) by reflexivity.
  assert (Hr : get_current_active_timetable_entry tz ([] ++ bad :: [work]) now
               = Ok (Some work)) by (vm_compute; reflexivity).
  split; [exact Hascii|]. split; [exact Hbad|]. split; [reflexivity|].
  split; [exact Hr|].
  destruct (malformed_time_is_not_skipped default_config [] bad [work] now Hascii Hbad)
    as [_ [H _]].
  exact (H _ Hr).
Defined.

(* ================================================================= *)
(** * Further properties of the code *)

(** ** DurationParser *)

Lemma isdigit_not_unit c : isdigit c = true -> is_unit c = false.
Proof.
  unfold isdigit, is_unit. intros H.
  apply andb_true_iff in H. destruct H as [A B].
  apply Z.leb_le in A. apply Z.leb_le in B.
  destruct (Ascii.eqb_spec c "h") as [->|_]; [simpl in B; lia|].
  destruct (Ascii.eqb_spec c "m") as [->|_]; [simpl in B; lia|].
  reflexivity.
Qed.

Lemma parse_duration_loop_filter s : forall total num,
  parse_duration_loop (filter_chars duration_char s) total num
  = parse_duration_loop s total num.
Proof.
  induction s as [|c s IH]; intros total num; [reflexivity|].
  cbn [filter_chars]. unfold duration_char.
  destruct (isdigit c) eqn:Hd.
  - cbn [orb parse_duration_loop]. rewrite Hd. apply IH.
  - cbn [orb]. destruct (is_unit c) eqn:Hu.
    + cbn [parse_duration_loop]. rewrite Hd. unfold is_unit in Hu. rewrite Hu.
      destruct (nonempty num); [destruct (c =? "h")%char|]; apply IH.
    + cbn [parse_duration_loop]. rewrite Hd. unfold is_unit in Hu. rewrite Hu.
      apply IH.
Qed.

(** X1. In a non-empty ASCII duration string of at most 4300 characters,
    the characters that are neither digits nor [h] / [m] are ignored
    wherever they stand, also between the digits of a number: the string
    parses to what its digits and units alone give. (Outside ASCII
    [str.isdigit] accepts further characters, and [int] raises on a number
    of more than 4300 digits: the statement does not cover such strings.) *)
Theorem parse_duration_ignores_other_chars (s : string) :
  s <> "" ->
  is_ascii s ->
  (String.length s <= 4300)%nat ->
  parse_duration (Some s)
  = Some (parse_duration_loop (filter_chars duration_char s) 0 "").
Proof.
  intros Hs _ _. apply nonempty_true_iff in Hs.
  unfold parse_duration. rewrite Hs. now rewrite parse_duration_loop_filter.
Qed.

Lemma parse_duration_ignores_other_chars_witness :
  "1 h, 3_0 m" <> "" /\ is_ascii "1 h, 3_0 m"
  /\ (String.length "1 h, 3_0 m" <= 4300)%nat
  /\ filter_chars duration_char "1 h, 3_0 m" = "1h30m"
  /\ parse_duration (Some "1 h, 3_0 m") = Some 90.
Proof.
  assert (H : "1 h, 3_0 m" <> "") by discriminate.
  assert (Ha : is_ascii "1 h, 3_0 m") by reflexivity.
  assert (Hl : (String.length "1 h, 3_0 m" <= 4300)%nat) by (simpl; lia).
  split; [exact H|]. split; [exact Ha|]. split; [exact Hl|].
  split; [reflexivity|].
  exact (parse_duration_ignores_other_chars "1 h, 3_0 m" H Ha Hl).
Defined.

Lemma parse_duration_loop_shift s : forall total num k,
  parse_duration_loop s (total + k) num = parse_duration_loop s total num + k.
Proof.
  induction s as [|c s IH]; intros total num k; simpl; [reflexivity|].
  destruct (isdigit c); [apply IH|].
  destruct ((c =? "h")%char || (c =? "m")%char); [|apply IH].
  destruct (nonempty num); [|apply IH].
  destruct (c =? "h")%char.
  - replace (total + k + int_of_digits num * 60)
      with (total + int_of_digits num * 60 + k) by lia. apply IH.
  - replace (total + k + int_of_digits num)
      with (total + int_of_digits num + k) by lia. apply IH.
Qed.

Lemma string_append_assoc (a b c : string) :
  ((a ++ b) ++ c)%string = (a ++ (b ++ c))%string.
Proof. induction a as [|x a IH]; simpl; [reflexivity | now rewrite IH]. Qed.

Lemma string_append_nil_r (a : string) : (a ++ "")%string = a.
Proof. induction a as [|x a IH]; simpl; [reflexivity | now rewrite IH]. Qed.

Lemma parse_duration_loop_leading_digits d : forall s total num,
  all_chars isdigit d = true ->
  parse_duration_loop (d ++ s)%string total num
  = parse_duration_loop s total (num ++ d)%string.
Proof.
  induction d as [|c d IH]; intros s total num H; simpl in *.
  - now rewrite string_append_nil_r.
  - apply andb_true_iff in H. destruct H as [Hc Hd]. rewrite Hc.
    rewrite (IH s total _ Hd). now rewrite string_append_assoc.
Qed.

Lemma parse_duration_value s :
  value_or_zero (parse_duration (Some s)) = parse_duration_loop s 0 "".
Proof.
  unfold parse_duration. destruct s; reflexivity.
Qed.

Lemma parse_duration_loop_hours rest total num :
  nonempty num = true ->
  parse_duration_loop (String "h" rest) total num
  = parse_duration_loop rest (total + int_of_digits num * 60) "".
Proof. intros H. simpl. now rewrite H. Qed.

Lemma parse_duration_loop_minutes rest total num :
  nonempty num = true ->
  parse_duration_loop (String "m" rest) total num
  = parse_duration_loop rest (total + int_of_digits num) "".
Proof. intros H. simpl. now rewrite H. Qed.

(** X2. In an ASCII duration string of at most 4300 characters, a
    leading number followed by its unit adds its value to what the rest of
    the string gives: sixty times the number for [h], the number itself for
    [m]. Pairs therefore add up in any order and a repeated unit is added
    again. (Outside ASCII [str.isdigit] accepts characters [int] rejects,
    and [int] raises on a number of more than 4300 digits: the statement
    does not cover such strings.) *)
Theorem parse_duration_leading_pair (d rest : string) :
  d <> "" ->
  all_chars isdigit d = true ->
  is_ascii rest ->
  (String.length d + String.length rest < 4300)%nat ->
  parse_duration (Some (d ++ "h" ++ rest)%string)
    = Some (int_of_digits d * 60 + value_or_zero (parse_duration (Some rest)))
  /\ parse_duration (Some (d ++ "m" ++ rest)%string)
     = Some (int_of_digits d + value_or_zero (parse_duration (Some rest))).
Proof.
  intros Hne Hd _ _. rewrite parse_duration_value.
  apply nonempty_true_iff in Hne.
  unfold parse_duration.
  rewrite !(nonempty_append _ _ Hne).
  rewrite !(parse_duration_loop_leading_digits d _ 0 "" Hd).
  change ("h" ++ rest)%string with (String "h" rest).
  change ("m" ++ rest)%string with (String "m" rest).
  change ("" ++ d)%string with d.
  rewrite (parse_duration_loop_hours _ _ _ Hne).
  rewrite (parse_duration_loop_minutes _ _ _ Hne).
  rewrite (parse_duration_loop_shift rest 0 "" (int_of_digits d * 60)).
  rewrite (parse_duration_loop_shift rest 0 "" (int_of_digits d)).
  split; f_equal; lia.
Qed.

Lemma parse_duration_leading_pair_witness :
  "1" <> "" /\ all_chars isdigit "1" = true /\ is_ascii "30m" /\
  (String.length "1" + String.length "30m" < 4300)%nat /\
  parse_duration (Some "1h30m") = Some 90.
Proof.
  assert (H1 : "1" <> "") by discriminate.
  assert (H2 : all_chars isdigit "1" = true) by reflexivity.
  assert (H3 : is_ascii "30m") by reflexivity.
  assert (H4 : (String.length "1" + String.length "30m" < 4300)%nat) by (simpl; lia).
  split; [exact H1|]. split; [exact H2|]. split; [exact H3|]. split; [exact H4|].
  exact (proj1 (parse_duration_leading_pair "1" "30m" H1 H2 H3 H4)).
Defined.

Lemma isdigit_value c : isdigit c = true -> 0 <= digit_value c <= 9.
Proof.
  unfold isdigit, digit_value. intros H.
  apply andb_true_iff in H. destruct H as [A B].
  apply Z.leb_le in A. apply Z.leb_le in B. lia.
Qed.

Lemma all_chars_append p (a b : string) :
  all_chars p (a ++ b)%string = all_chars p a && all_chars p b.
Proof.
  induction a as [|c a IH]; simpl; [reflexivity|].
  now rewrite IH, andb_assoc.
Qed.

Lemma int_of_digits_from_nonneg s : forall acc,
  0 <= acc -> all_chars isdigit s = true -> 0 <= int_of_digits_from acc s.
Proof.
  induction s as [|c s IH]; intros acc Hacc H; simpl in *; [exact Hacc|].
  apply andb_true_iff in H. destruct H as [Hc Hs].
  apply IH; [|exact Hs]. pose proof (isdigit_value c Hc). lia.
Qed.

Lemma parse_duration_loop_nonneg s : forall total num,
  0 <= total -> all_chars isdigit num = true ->
  0 <= parse_duration_loop s total num.
Proof.
  induction s as [|c s IH]; intros total num Ht Hn; simpl; [exact Ht|].
  destruct (isdigit c) eqn:Hc.
  - apply IH; [exact Ht|]. rewrite all_chars_append, Hn. simpl. now rewrite Hc.
  - assert (Hv : 0 <= int_of_digits num)
      by (apply int_of_digits_from_nonneg; [lia | exact Hn]).
    destruct ((c =? "h")%char || (c =? "m")%char); [|now apply IH].
    destruct (nonempty num); [|now apply IH].
    destruct (c =? "h")%char; apply IH; try reflexivity; lia.
Qed.

(** X3. A parsed duration is never negative. *)
Theorem parse_duration_nonneg (duration_str : option string) (n : Z) :
  parse_duration duration_str = Some n -> 0 <= n.
Proof.
  unfold parse_duration. destruct duration_str as [s|]; [|discriminate].
  destruct (nonempty s); [|discriminate].
  intros H. injection H as <-.
  apply parse_duration_loop_nonneg; [lia | reflexivity].
Qed.

Lemma parse_duration_nonneg_witness :
  parse_duration (Some "2h15m") = Some 135 /\ 0 <= 135.
Proof.
  assert (H : parse_duration (Some "2h15m") = Some 135) by reflexivity.
  split; [exact H | exact (parse_duration_nonneg _ _ H)].
Defined.

(** ** Timetable entries and their windows *)

(** X4. An entry whose duration is absent, empty or written without a
    unit (such as "90") has no duration of its own after loading: its
    window ends where the next entry of the sorted timetable starts, and
    at 23:59:59 when it is the last one. *)
Theorem unitless_duration_ends_at_next_start (r : raw_entry) tz now dt next :
  (raw_duration r = None \/
   exists s, raw_duration r = Some s /\
             all_chars (fun c => negb (is_unit c)) s = true) ->
  window_end tz now dt (load_entry r) next
  = match next with
    | Some n => task_start tz now n
    | None => Ok (combine tz (today tz now) 23 59 59)
    end.
Proof.
  intros H. unfold window_end, load_entry. cbn [duration_minutes].
  assert (Hd : parse_duration
                 (Some match raw_duration r with Some d => d | None => "" end) = None
               \/ parse_duration
                    (Some match raw_duration r with Some d => d | None => "" end)
                  = Some 0).
  { destruct H as [->|[s [-> Hs]]]; [now left|].
    unfold parse_duration. destruct (nonempty s); [|now left].
    right. now rewrite parse_duration_loop_no_unit. }
  destruct Hd as [->| ->]; reflexivity.
Qed.

Lemma unitless_duration_ends_at_next_start_witness :
  let tz := TIMEZONE default_config in
  let r := mk_raw "09:00" "Work" (Some "90") None in
  let next := load_entry (mk_raw "10:30" "Lunch" None None) in
  let now := combine tz 20000 9 10 0 in
  window_end tz now (combine tz 20000 9 0 0) (load_entry r) (Some next)
  = Ok (combine tz 20000 10 30 0).
Proof.
  intros tz r next now.
  rewrite (unitless_duration_ends_at_next_start r tz now (combine tz 20000 9 0 0)
             (Some next)).
  - reflexivity.
  - right. exists "90". split; reflexivity.
Defined.

Lemma insert_by_time_in x a l : In x (insert_by_time a l) <-> x = a \/ In x l.
Proof.
  induction l as [|y l IH]; simpl.
  - intuition congruence.
  - destruct (String.ltb (time y) (time a)); simpl; rewrite ?IH;
      intuition congruence.
Qed.

Lemma sorted_by_time_in x l : In x (sorted_by_time l) <-> In x l.
Proof.
  induction l as [|a l IH]; simpl; [reflexivity|].
  rewrite insert_by_time_in, IH. intuition congruence.
Qed.

(** The entry the loop returns is the first one, in the order of the list,
    for which the test of line 219 holds; its window ends where the code
    says, with the entry that follows it in the list as its successor. *)
Lemma active_loop_found tz now l : forall prev e,
  active_loop tz now prev l = Ok (Some e) ->
  exists pre post,
    l = pre ++ e :: post /\
    in_window tz now e (hd_error post) /\
    (forall p1 x p2, pre = p1 ++ x :: p2 ->
       ~ in_window tz now x (hd_error (p2 ++ e :: post))).
Proof.
  induction l as [|x rest IH]; intros prev e H; simpl in H; [discriminate|].
  destruct (task_start tz now x) as [start|] eqn:Hs; simpl in H; [|discriminate].
  destruct (window_end tz now start x (hd_error rest)) as [stop|] eqn:He;
    simpl in H; [|discriminate].
  destruct ((start <=? now) && (now <=? stop)) eqn:Hw.
  - injection H as <-. exists [], rest. split; [reflexivity|]. split.
    + apply andb_true_iff in Hw. destruct Hw as [A B].
      apply Z.leb_le in A. apply Z.leb_le in B.
      exists start, stop. auto.
    + intros [|z p1] y p2 Hp; discriminate Hp.
  - assert (Hrec : active_loop tz now (Some x) rest = Ok (Some e)).
    { destruct prev as [p|]; [|exact H].
      destruct (now =? start); [discriminate H | exact H]. }
    destruct (IH _ _ Hrec) as [pre [post [-> [Hin Hfirst]]]].
    exists (x :: pre), post. split; [reflexivity|]. split; [exact Hin|].
    intros [|z p1] y p2 Hp; simpl in Hp.
    + injection Hp as Hy Hp2. subst y p2.
      intros [s' [t' [Hs' [He' [A B]]]]].
      rewrite Hs in Hs'. injection Hs' as <-.
      rewrite He in He'. injection He' as <-.
      apply Z.leb_le in A. apply Z.leb_le in B.
      rewrite A, B in Hw. discriminate Hw.
    + injection Hp as _ Hp. exact (Hfirst p1 y p2 Hp).
Qed.

Lemma in_app_middle {A : Type} (x : A) pre post : In x (pre ++ x :: post).
Proof. apply in_or_app. right. now left. Qed.

(** X5. The entry resolution returns is an entry of the timetable: the
    first one, in the order of the time strings, for which the test of
    line 219 holds at [now], where the window of an entry runs from the
    start the code computes for it to the end the code computes for it with
    the entry sorted next as its successor. The start is the time of day
    on the date of [now] with the UTC offset of the zone object, so on the
    clock of [now] an entry is never active before its time of day minus
    the [skew] of the zone (on the clock of the default zone Asia/Kolkata,
    an entry of 22:00 is active from 21:37 on). *)
Theorem active_entry_is_listed_and_current tz tt now e :
  get_current_active_timetable_entry tz tt now = Ok (Some e) ->
  In e tt
  /\ (exists pre post,
        sorted_by_time tt = pre ++ e :: post
        /\ in_window tz now e (hd_error post)
        /\ forall p1 x p2, pre = p1 ++ x :: p2 ->
             ~ in_window tz now x (hd_error (p2 ++ e :: post)))
  /\ (exists h m,
        strptime_HM (time e) = Ok (h, m)
        /\ wall_clock (today tz now) h m 0 - skew tz now <= wall_now tz now).
Proof.
  unfold get_current_active_timetable_entry. intros H.
  destruct (active_loop_found _ _ _ _ _ H) as [pre [post [Hl [Hin Hfirst]]]].
  split; [|split].
  - apply sorted_by_time_in. rewrite Hl. apply in_app_middle.
  - exists pre, post. auto.
  - destruct Hin as [start [stop [Hs [_ [Hle _]]]]].
    unfold task_start in Hs.
    destruct (strptime_HM (time e)) as [[h m]|]; [|discriminate Hs].
    simpl in Hs. injection Hs as <-.
    exists h, m. split; [reflexivity|].
    unfold combine, skew, wall_now in *. lia.
Qed.

Lemma active_entry_is_listed_and_current_witness :
  let sleep := load_entry (mk_raw "22:00" "Sleep" None None) in
  let work := load_entry (mk_raw "09:00" "Work" (Some "4h") None) in
  let now_utc := at_clock 0 20000 11 0 0 in
  let now_ist := at_clock IST 20000 21 40 0 in
  (get_current_active_timetable_entry UTC scenario_timetable now_utc = Ok (Some work)
   /\ In work scenario_timetable)
  /\ (wall_now Asia_Kolkata now_ist = wall_clock 20000 21 40 0
      /\ get_current_active_timetable_entry Asia_Kolkata [sleep] now_ist = Ok (Some sleep)
      /\ exists h m,
           strptime_HM (time sleep) = Ok (h, m)
           /\ wall_clock (today Asia_Kolkata now_ist) h m 0 - skew Asia_Kolkata now_ist
              <= wall_now Asia_Kolkata now_ist).
Proof.
  intros sleep work now_utc now_ist.
  assert (H1 : get_current_active_timetable_entry UTC scenario_timetable now_utc
               = Ok (Some work)) by (vm_compute; reflexivity).
  assert (H2 : get_current_active_timetable_entry Asia_Kolkata [sleep] now_ist
               = Ok (Some sleep)) by (vm_compute; reflexivity).
  split.
  - split; [exact H1|].
    exact (proj1 (active_entry_is_listed_and_current UTC scenario_timetable now_utc
                    work H1)).
  - split; [reflexivity|]. split; [exact H2|].
    exact (proj2 (proj2 (active_entry_is_listed_and_current Asia_Kolkata [sleep]
                           now_ist sleep H2))).
Defined.

Lemma minute_of_range s m : minute_of s = Ok m -> 0 <= m <= 59.
Proof.
  unfold minute_of.
  destruct s as [|m1 [|m2 [|c s]]]; try discriminate.
  - destruct (isdigit m1) eqn:H1; [|discriminate].
    intros H. injection H as <-. pose proof (isdigit_value _ H1). lia.
  - destruct (isdigit m1) eqn:H1; [|discriminate].
    destruct (digit_value m1 <=? 5) eqn:H5; [|discriminate].
    destruct (isdigit m2) eqn:H2; [|discriminate].
    intros H. injection H as <-. apply Z.leb_le in H5.
    pose proof (isdigit_value _ H1). pose proof (isdigit_value _ H2). lia.
Qed.

Lemma strptime_HM_range s h m :
  strptime_HM s = Ok (h, m) -> 0 <= h <= 23 /\ 0 <= m <= 59.
Proof.
  unfold strptime_HM.
  destruct s as [|h1 [|c2 rest]]; try discriminate.
  destruct (isdigit h1) eqn:H1; [|discriminate].
  pose proof (isdigit_value _ H1) as B1.
  destruct (c2 =? ":")%char.
  - destruct (minute_of rest) as [m'|] eqn:Hm; [|discriminate].
    intros H. injection H as <- <-. apply minute_of_range in Hm. lia.
  - destruct rest as [|c3 rest']; [discriminate|].
    destruct (isdigit c2) eqn:H2; [|discriminate].
    destruct (digit_value h1 * 10 + digit_value c2 <=? 23) eqn:H23; [|discriminate].
    destruct (c3 =? ":")%char; [|discriminate].
    destruct (minute_of rest') as [m'|] eqn:Hm; [|discriminate].
    intros H. injection H as <- <-. apply minute_of_range in Hm.
    apply Z.leb_le in H23. pose proof (isdigit_value _ H2). lia.
Qed.

Lemma task_start_before_end_of_day tz now e start :
  task_start tz now e = Ok start -> start <= combine tz (today tz now) 23 59 59.
Proof.
  unfold task_start.
  destruct (strptime_HM (time e)) as [[h m]|] eqn:Hp; [|discriminate].
  intros H. injection H as <-. apply strptime_HM_range in Hp. simpl.
  unfold combine, wall_clock, usec_per_sec. lia.
Qed.

Lemma window_end_no_duration tz now dt e next :
  no_duration e ->
  window_end tz now dt e next
  = match next with
    | Some n => task_start tz now n
    | None => Ok (combine tz (today tz now) 23 59 59)
    end.
Proof.
  unfold window_end. intros [->| ->]; reflexivity.
Qed.

(** X6. An entry without a duration of its own is active at most until
    the instant the code computes for 23:59:59.000000 of the date of
    [now]. On the clock of [now] that is 23:59:59 minus the [skew] of the
    zone: in a fixed-offset zone no such entry is returned during the rest
    of the last second of the day, not even the last entry of the
    timetable, and under the default zone Asia/Kolkata none is returned
    after 23:36:59. *)
Theorem no_duration_entry_ends_by_last_second tz tt now e :
  get_current_active_timetable_entry tz tt now = Ok (Some e) ->
  no_duration e ->
  now <= combine tz (today tz now) 23 59 59
  /\ wall_now tz now <= wall_clock (today tz now) 23 59 59 - skew tz now.
Proof.
  intros H Hd.
  assert (Hle : now <= combine tz (today tz now) 23 59 59).
  { destruct (active_loop_found _ _ _ _ _ H)
      as [pre [post [_ [[start [stop [_ [He [_ Hle]]]]] _]]]].
    rewrite (window_end_no_duration _ _ _ _ _ Hd) in He.
    destruct (hd_error post) as [n|].
    - apply task_start_before_end_of_day in He. lia.
    - injection He as <-. exact Hle. }
  split; [exact Hle|].
  unfold combine, skew, wall_now in *. lia.
Qed.

Lemma no_duration_entry_ends_by_last_second_witness :
  let sleep := load_entry (mk_raw "22:00" "Sleep" None None) in
  let now_utc := at_clock 0 20000 23 59 59 in
  let now_ist := at_clock IST 20000 23 36 59 in
  (get_current_active_timetable_entry UTC [sleep] now_utc = Ok (Some sleep)
   /\ get_current_active_timetable_entry UTC [sleep] (now_utc + 1) = Ok None
   /\ wall_now UTC now_utc <= wall_clock (today UTC now_utc) 23 59 59 - skew UTC now_utc)
  /\ (get_current_active_timetable_entry Asia_Kolkata [sleep] now_ist = Ok (Some sleep)
      /\ get_current_active_timetable_entry Asia_Kolkata [sleep] (now_ist + 1) = Ok None
      /\ wall_now Asia_Kolkata now_ist
         <= wall_clock (today Asia_Kolkata now_ist) 23 59 59 - skew Asia_Kolkata now_ist
      /\ wall_clock (today Asia_Kolkata now_ist) 23 59 59 - skew Asia_Kolkata now_ist
         = wall_clock 20000 23 36 59).
Proof.
  intros sleep now_utc now_ist.
  assert (Hd : no_duration sleep) by (left; reflexivity).
  assert (H1 : get_current_active_timetable_entry UTC [sleep] now_utc = Ok (Some sleep))
    by (vm_compute; reflexivity).
  assert (H2 : get_current_active_timetable_entry Asia_Kolkata [sleep] now_ist
               = Ok (Some sleep)) by (vm_compute; reflexivity).
  split.
  - split; [exact H1|]. split; [vm_compute; reflexivity|].
    exact (proj2 (no_duration_entry_ends_by_last_second UTC [sleep] now_utc sleep H1 Hd)).
  - split; [exact H2|]. split; [vm_compute; reflexivity|]. split.
    + exact (proj2 (no_duration_entry_ends_by_last_second Asia_Kolkata [sleep] now_ist
                      sleep H2 Hd)).
    + reflexivity.
Defined.

(** ** Sorting by the time string *)

Lemma zero_padded_shape s :
  zero_padded s ->
  exists a b d e,
    s = String a (String b (String ":" (String d (String e ""))))
    /\ isdigit a = true /\ isdigit b = true
    /\ isdigit d = true /\ isdigit e = true
    /\ digit_value d * 10 + digit_value e <= 59
    /\ minute_of_day s
       = (digit_value a * 10 + digit_value b) * 60
         + (digit_value d * 10 + digit_value e).
Proof.
  intros [Hlen [[h m] Hp]].
  destruct s as [|a [|b [|c [|d [|e [|x s]]]]]]; try discriminate Hlen.
  unfold minute_of_day. rewrite Hp.
  pose proof (strptime_HM_range _ _ _ Hp) as [_ Hm].
  unfold strptime_HM in Hp.
  destruct (isdigit a) eqn:Ha; [|discriminate].
  destruct (b =? ":")%char; [discriminate Hp|].
  destruct (isdigit b) eqn:Hb; [|discriminate].
  destruct (digit_value a * 10 + digit_value b <=? 23); [|discriminate].
  destruct (Ascii.eqb_spec c ":") as [->|_]; [|discriminate].
  cbn [andb] in Hp.
  destruct (minute_of (String d (String e ""))) as [m'|] eqn:Hmin;
    cbn [bind] in Hp; [|discriminate].
  injection Hp as <- <-.
  unfold minute_of in Hmin.
  destruct (isdigit d) eqn:Hd; [|discriminate].
  destruct (digit_value d <=? 5); [|discriminate].
  destruct (isdigit e) eqn:He; [|discriminate].
  cbn [andb] in Hmin. injection Hmin as <-.
  exists a, b, d, e. repeat split; try reflexivity; try assumption; lia.
Qed.

Lemma zero_padded_ltb (s1 s2 : string) :
  zero_padded s1 -> zero_padded s2 ->
  (String.ltb s1 s2 = true <-> minute_of_day s1 < minute_of_day s2).
Proof.
  intros H1 H2.
  destruct (zero_padded_shape _ H1)
    as [a1 [b1 [d1 [e1 [-> [Ha1 [Hb1 [Hd1 [He1 [Hm1 ->]]]]]]]]]].
  destruct (zero_padded_shape _ H2)
    as [a2 [b2 [d2 [e2 [-> [Ha2 [Hb2 [Hd2 [He2 [Hm2 ->]]]]]]]]]].
  apply isdigit_value in Ha1, Hb1, Hd1, He1, Ha2, Hb2, Hd2, He2.
  unfold digit_value in *.
  unfold String.ltb. cbn [String.compare].
  replace (Ascii.compare ":" ":") with Eq by reflexivity.
  unfold Ascii.compare.
  destruct (N.compare_spec (N_of_ascii a1) (N_of_ascii a2));
    [destruct (N.compare_spec (N_of_ascii b1) (N_of_ascii b2));
       [destruct (N.compare_spec (N_of_ascii d1) (N_of_ascii d2));
          [destruct (N.compare_spec (N_of_ascii e1) (N_of_ascii e2))| |]| |]| |];
    split; intros Hx; try discriminate Hx; try reflexivity; lia.
Qed.

(** X7. On zero-padded HH:MM strings the order [sorted] uses, the order of
    the strings, is the order of the times of day: one string is smaller
    than another exactly when its time is earlier. *)
Theorem zero_padded_string_order_is_time_order (s1 s2 : string) :
  zero_padded s1 -> zero_padded s2 ->
  (String.ltb s1 s2 = true <-> minute_of_day s1 < minute_of_day s2).
Proof. exact (zero_padded_ltb s1 s2). Qed.

Lemma zero_padded_string_order_is_time_order_witness :
  zero_padded "09:30" /\ zero_padded "13:05" /\ String.ltb "09:30" "13:05" = true.
Proof.
  assert (H1 : zero_padded "09:30") by (split; [reflexivity | now exists (9, 30)]).
  assert (H2 : zero_padded "13:05") by (split; [reflexivity | now exists (13, 5)]).
  split; [exact H1|]. split; [exact H2|].
  apply (zero_padded_string_order_is_time_order _ _ H1 H2).
  vm_compute. reflexivity.
Defined.

(** ** TimetableIndex: how the windows cover the day *)

Lemma task_start_minute_of_day tz now e :
  (exists hm, strptime_HM (time e) = Ok hm) ->
  task_start tz now e = Ok (start_of_day_minute tz now e).
Proof.
  intros [[h m] Hp]. unfold task_start, start_of_day_minute, minute_of_day.
  rewrite Hp. simpl.
  apply (f_equal (@Ok Z)). unfold combine, wall_clock, usec_per_min, usec_per_sec. lia.
Qed.

Lemma sorted_zero_padded_ascending l :
  (forall e, In e l -> zero_padded (time e)) ->
  StronglySorted earlier_or_same (sorted_by_time l).
Proof.
  intros Hz.
  assert (Hs : StronglySorted time_le (sorted_by_time l)).
  { apply Sorted_StronglySorted; [|apply sorted_by_time_sorted].
    intros x y z. apply time_le_trans. }
  assert (Hz' : forall e, In e (sorted_by_time l) -> zero_padded (time e))
    by (intros e He; apply Hz; now apply sorted_by_time_in).
  clear Hz. induction Hs as [|x rest Hs IH Hall]; constructor.
  - apply IH. intros e He. apply Hz'. now right.
  - rewrite Forall_forall in *. intros y Hy.
    specialize (Hall y Hy). unfold time_le in Hall. unfold earlier_or_same.
    assert (Hxy : ~ minute_of_day (time y) < minute_of_day (time x)).
    { intros Hlt.
      apply (zero_padded_ltb (time y) (time x)) in Hlt;
        [congruence | apply Hz'; now right | apply Hz'; now left]. }
    lia.
Qed.

Lemma active_loop_tiled tz now l : forall prev,
  (forall e, In e l -> (exists hm, strptime_HM (time e) = Ok hm) /\ no_duration e) ->
  StronglySorted earlier_or_same l ->
  now <= combine tz (today tz now) 23 59 59 ->
  (exists e0, In e0 l /\ start_of_day_minute tz now e0 <= now) ->
  exists e, active_loop tz now prev l = Ok (Some e).
Proof.
  induction l as [|e rest IH]; intros prev Hall Hs Heod [e0 [Hin H0]].
  - destruct Hin.
  - apply StronglySorted_inv in Hs. destruct Hs as [Hs Hfa].
    rewrite Forall_forall in Hfa.
    destruct (Hall e (or_introl eq_refl)) as [Hpe Hde].
    cbn [active_loop].
    rewrite (task_start_minute_of_day tz now e Hpe). cbn [bind].
    rewrite (window_end_no_duration _ _ _ _ _ Hde).
    assert (Hle : start_of_day_minute tz now e <= now).
    { destruct Hin as [<-|Hin]; [exact H0|].
      specialize (Hfa e0 Hin). unfold earlier_or_same in Hfa.
      unfold start_of_day_minute, usec_per_min, usec_per_sec in *. lia. }
    destruct rest as [|n rest'].
    + cbn [hd_error bind].
      exists e. apply Z.leb_le in Hle. apply Z.leb_le in Heod.
      now rewrite Hle, Heod.
    + cbn [hd_error].
      destruct (Hall n (or_intror (or_introl eq_refl))) as [Hpn _].
      rewrite (task_start_minute_of_day tz now n Hpn). cbn [bind].
      destruct (Z.leb_spec now (start_of_day_minute tz now n)) as [Hn|Hn].
      * exists e. apply Z.leb_le in Hle. now rewrite Hle.
      * rewrite andb_false_r.
        assert (Hne : (now =? start_of_day_minute tz now e) = false).
        { apply Z.eqb_neq. specialize (Hfa n (or_introl eq_refl)).
          unfold earlier_or_same in Hfa.
          unfold start_of_day_minute, usec_per_min, usec_per_sec in *. lia. }
        assert (Hrec : exists e', active_loop tz now (Some e) (n :: rest') = Ok (Some e')).
        { apply IH; [|exact Hs|exact Heod|].
          - intros x Hx. apply Hall. now right.
          - exists n. split; [now left | lia]. }
        destruct prev as [p|]; [rewrite Hne|]; exact Hrec.
Qed.

(** X8. A timetable of zero-padded HH:MM entries without durations covers
    the day from its earliest start on: at every instant from the earliest
    start the code computes to the instant it computes for 23:59:59,
    resolution returns an entry. It neither raises nor finds a gap between
    two entries. (On the clock of [now] both ends lie earlier by the [skew]
    of the zone: under the default zone Asia/Kolkata the last entry is
    returned until 23:36:59 and no entry after that.) *)
Theorem day_is_covered_from_first_start tz tt now :
  (forall e, In e tt -> zero_padded (time e) /\ no_duration e) ->
  now <= combine tz (today tz now) 23 59 59 ->
  (exists e0 s0, In e0 tt /\ task_start tz now e0 = Ok s0 /\ s0 <= now) ->
  exists e, get_current_active_timetable_entry tz tt now = Ok (Some e).
Proof.
  intros Hall Heod [e0 [s0 [Hin [Hs0 Hle]]]].
  unfold get_current_active_timetable_entry.
  apply active_loop_tiled.
  - intros e He. apply (proj1 (sorted_by_time_in e tt)) in He.
    destruct (Hall e He) as [[_ Hp] Hd]. auto.
  - apply sorted_zero_padded_ascending. intros e He. now apply Hall.
  - exact Heod.
  - exists e0. split; [exact (proj2 (sorted_by_time_in e0 tt) Hin)|].
    destruct (Hall e0 Hin) as [[_ Hp] _].
    rewrite (task_start_minute_of_day tz now e0 Hp) in Hs0.
    injection Hs0 as <-. exact Hle.
Qed.

Lemma day_is_covered_from_first_start_witness :
  let wake := load_entry (mk_raw "08:00" "Wake" None None) in
  let work := load_entry (mk_raw "09:00" "Work" None None) in
  let late := at_clock IST 20000 23 36 59 in
  wall_now Asia_Kolkata late = wall_clock 20000 23 36 59
  /\ (exists e, get_current_active_timetable_entry Asia_Kolkata [work; wake] late
                = Ok (Some e))
  /\ get_current_active_timetable_entry Asia_Kolkata [work; wake] (late + 1) = Ok None
  /\ (exists e, get_current_active_timetable_entry UTC [work; wake]
                  (at_clock 0 20000 21 15 0) = Ok (Some e)).
Proof.
  intros wake work late.
  assert (Hall : forall e, In e [work; wake] -> zero_padded (time e) /\ no_duration e).
  { intros e [<-|[<-|[]]]; (split; [split; [reflexivity | eexists; reflexivity]
                                    | left; reflexivity]). }
  split; [reflexivity|]. split; [|split].
  - apply (day_is_covered_from_first_start Asia_Kolkata [work; wake] late Hall).
    + vm_compute. discriminate.
    + exists wake, (combine Asia_Kolkata 20000 8 0 0).
      split; [right; left; reflexivity|]. split; [reflexivity|].
      vm_compute. discriminate.
  - vm_compute. reflexivity.
  - apply (day_is_covered_from_first_start UTC [work; wake] _ Hall).
    + vm_compute. discriminate.
    + exists wake, (combine UTC 20000 8 0 0).
      split; [right; left; reflexivity|]. split; [reflexivity|].
      vm_compute. discriminate.
Defined.

Lemma add_minutes_outcome tz t n :
  (exists r, add_minutes tz t n = Ok r) \/ add_minutes tz t n = Raise OverflowError.
Proof.
  unfold add_minutes, timedelta_minutes, datetime_add.
  destruct (_ && _); cbn [bind]; [|now right].
  destruct (_ && _); [left; eauto | now right].
Qed.

Lemma active_loop_before_all tz now l : forall prev,
  (forall e, In e l -> exists s, task_start tz now e = Ok s /\ now < s) ->
  active_loop tz now prev l = Ok None \/ active_loop tz now prev l = Raise OverflowError.
Proof.
  induction l as [|e rest IH]; intros prev Hall; [now left|].
  destruct (Hall e (or_introl eq_refl)) as [s [Hs Hlt]].
  cbn [active_loop]. rewrite Hs. cbn [bind].
  assert (Hnext : match hd_error rest with
                  | Some n => exists sn, task_start tz now n = Ok sn
                  | None => True
                  end).
  { destruct rest as [|n rest']; [exact I|]. simpl.
    destruct (Hall n (or_intror (or_introl eq_refl))) as [sn [Hn _]]. eauto. }
  assert (Hw : (exists stop, window_end tz now s e (hd_error rest) = Ok stop)
               \/ window_end tz now s e (hd_error rest) = Raise OverflowError).
  { unfold window_end.
    destruct (duration_minutes e) as [d|].
    - destruct (negb (d =? 0)); [apply add_minutes_outcome|].
      destruct (hd_error rest); [destruct Hnext as [sn ->]|]; left; eauto.
    - destruct (hd_error rest); [destruct Hnext as [sn ->]|]; left; eauto. }
  destruct Hw as [[stop ->]| ->]; cbn [bind]; [|now right].
  replace (s <=? now) with false by (symmetry; apply Z.leb_gt; exact Hlt).
  cbn [andb].
  replace (now =? s) with false by (symmetry; apply Z.eqb_neq; lia).
  assert (Hrec := IH (Some e) (fun x Hx => Hall x (or_intror Hx))).
  destruct prev; exact Hrec.
Qed.

(** X9. Before the first start nothing is active: when the start the code
    computes is after [now] for every entry, resolution returns no entry.
    (The only other outcome is the [OverflowError] of a duration that
    leaves the datetime range.) The starts are those of the code: under
    the default zone Asia/Kolkata an entry of 09:00 starts at 08:37 on the
    clock, so nothing is active at 08:36:59 and the entry is at 08:50. *)
Theorem nothing_active_before_first_start tz tt now :
  (forall e, In e tt -> exists s, task_start tz now e = Ok s /\ now < s) ->
  get_current_active_timetable_entry tz tt now = Ok None
  \/ get_current_active_timetable_entry tz tt now = Raise OverflowError.
Proof.
  intros Hall. unfold get_current_active_timetable_entry.
  apply active_loop_before_all.
  intros e He. apply Hall. exact (proj1 (sorted_by_time_in e tt) He).
Qed.

Lemma nothing_active_before_first_start_witness :
  let work := load_entry (mk_raw "09:00" "Work" None None) in
  get_current_active_timetable_entry UTC scenario_timetable (at_clock 0 20000 7 59 59)
  = Ok None
  /\ get_current_active_timetable_entry Asia_Kolkata [work] (at_clock IST 20000 8 36 59)
     = Ok None
  /\ get_current_active_timetable_entry Asia_Kolkata [work] (at_clock IST 20000 8 50 0)
     = Ok (Some work).
Proof.
  intros work. split; [|split].
  - destruct (nothing_active_before_first_start UTC scenario_timetable
                (at_clock 0 20000 7 59 59)) as [H|H].
    + intros e [<-|[<-|[<-|[]]]]; eexists; (split; [reflexivity|]);
        vm_compute; reflexivity.
    + exact H.
    + vm_compute in H. discriminate H.
  - destruct (nothing_active_before_first_start Asia_Kolkata [work]
                (at_clock IST 20000 8 36 59)) as [H|H].
    + intros e [<-|[]]; eexists; (split; [reflexivity|]); vm_compute; reflexivity.
    + exact H.
    + vm_compute in H. discriminate H.
  - vm_compute. reflexivity.
Defined.

(** ** The scan for the upcoming entry *)

Lemma sub_minutes_value tz now n horizon :
  sub_minutes tz now n = Ok horizon -> horizon = now - n * usec_per_min.
Proof.
  unfold sub_minutes, timedelta_minutes, datetime_add.
  destruct (_ && _); cbn [bind]; [|discriminate].
  destruct (_ && _); [|discriminate].
  intros H. injection H as <-. lia.
Qed.

Lemma upcoming_loop_found_horizon cfg now l : forall last scan u,
  upcoming_loop cfg now last l = Ok scan ->
  upcoming_task_entry scan = Some u ->
  In u l /\
  exists dt,
    task_start (TIMEZONE cfg) now u = Ok dt /\
    now - GRACE_MINUTES_AFTER_START cfg * usec_per_min <= dt /\
    time_until_upcoming_task_minutes scan = Z.quot (dt - now) usec_per_min /\
    is_upcoming_task_just_started scan
      = ((now >=? dt) &&
         (now - dt <=? GRACE_MINUTES_AFTER_START cfg * 60 * usec_per_sec)).
Proof.
  induction l as [|e rest IH]; intros last scan u H Hu; simpl in H.
  - injection H as <-. discriminate Hu.
  - destruct (task_start (TIMEZONE cfg) now e) as [dt|] eqn:Hs; simpl in H;
      [|discriminate].
    destruct (sub_minutes (TIMEZONE cfg) now _) as [horizon|] eqn:Hh; simpl in H;
      [|discriminate].
    apply sub_minutes_value in Hh.
    destruct (dt >=? horizon) eqn:Hge.
    + injection H as <-. simpl in Hu. injection Hu as <-.
      split; [now left|]. exists dt. simpl.
      apply Z.geb_le in Hge. repeat split; try reflexivity; [exact Hs | lia].
    + destruct (IH _ _ _ H Hu) as [Hin Hrest]. split; [now right | exact Hrest].
Qed.

(** X10. The entry the scan settles on is an entry of the timetable whose
    start, as the code computes it, lies no more than
    [GRACE_MINUTES_AFTER_START] minutes before [now]: the minutes until it
    are never below minus the grace period, and it counts as just started
    exactly when that start is not after [now]. The start is the time of
    day with the UTC offset of the zone object: on the clock of the default
    zone Asia/Kolkata an entry of 09:00 counts as just started at 08:38. *)
Theorem upcoming_entry_within_grace cfg tt now scan u :
  upcoming_loop cfg now None (sorted_by_time tt) = Ok scan ->
  upcoming_task_entry scan = Some u ->
  In u tt
  /\ exists dt,
       task_start (TIMEZONE cfg) now u = Ok dt
       /\ now - GRACE_MINUTES_AFTER_START cfg * usec_per_min <= dt
       /\ - GRACE_MINUTES_AFTER_START cfg <= time_until_upcoming_task_minutes scan
       /\ (is_upcoming_task_just_started scan = true <-> dt <= now).
Proof.
  intros H Hu.
  destruct (upcoming_loop_found_horizon _ _ _ _ _ _ H Hu)
    as [Hin [dt [Hs [Hh [Hm Hj]]]]].
  split; [exact (proj1 (sorted_by_time_in u tt) Hin)|].
  exists dt. split; [exact Hs|]. split; [exact Hh|]. split.
  - rewrite Hm.
    assert (Hq : Z.quot (- GRACE_MINUTES_AFTER_START cfg * usec_per_min) usec_per_min
                 = - GRACE_MINUTES_AFTER_START cfg)
      by (apply Z.quot_mul; discriminate).
    rewrite <- Hq. apply Z.quot_le_mono; [reflexivity | lia].
  - rewrite Hj, andb_true_iff, Z.geb_le, Z.leb_le.
    unfold usec_per_min in Hh. split; [tauto | lia].
Qed.

Lemma upcoming_entry_within_grace_witness :
  let work := load_entry (mk_raw "09:00" "Work" None None) in
  let now_utc := at_clock 0 20000 9 1 30 in
  let now_ist := at_clock IST 20000 8 38 0 in
  (upcoming_loop (config_in UTC) now_utc None (sorted_by_time [work])
   = Ok (mk_scan (Some work) (Some (at_clock 0 20000 9 0 0)) (-1) true)
   /\ In work [work])
  /\ (wall_now Asia_Kolkata now_ist = wall_clock 20000 8 38 0
      /\ upcoming_loop default_config now_ist None (sorted_by_time [work])
         = Ok (mk_scan (Some work) (Some (at_clock IST 20000 8 37 0)) (-1) true)
      /\ In work [work]).
Proof.
  intros work now_utc now_ist.
  assert (H1 : upcoming_loop (config_in UTC) now_utc None (sorted_by_time [work])
               = Ok (mk_scan (Some work) (Some (at_clock 0 20000 9 0 0)) (-1) true))
    by (vm_compute; reflexivity).
  assert (H2 : upcoming_loop default_config now_ist None (sorted_by_time [work])
               = Ok (mk_scan (Some work) (Some (at_clock IST 20000 8 37 0)) (-1) true))
    by (vm_compute; reflexivity).
  split.
  - split; [exact H1|].
    exact (proj1 (upcoming_entry_within_grace (config_in UTC) [work] now_utc _ work
                    H1 eq_refl)).
  - split; [reflexivity|]. split; [exact H2|].
    exact (proj1 (upcoming_entry_within_grace default_config [work] now_ist _ work
                    H2 eq_refl)).
Defined.

(** ** NotificationPolicy: what one call can do *)





Lemma policy_evaluation_decide cfg tt st now active scan :
  resolve cfg tt now = Ok (active, scan) ->
  policy_evaluation cfg tt st now = decide cfg st now active scan.
Proof. unfold policy_evaluation. now intros ->. Qed.

(** The branch for the upcoming entry does not look at the state. *)
Lemma decide_upcoming_stateless cfg st now active scan st' d :
  active_arm active = false ->
  decide cfg st now active scan = Ok (st', d) ->
  st' = st /\ forall st2, decide cfg st2 now active scan = Ok (st2, d).
Proof.
  unfold decide. intros Harm. rewrite Harm.
  destruct (upcoming_task_entry scan) as [u|].
  - destruct (read_task_dt_local scan) as [dt|]; cbn [bind]; [|discriminate].
    destruct (upcoming_due cfg now dt scan) as [due|]; cbn [bind]; [|discriminate].
    destruct due.
    + destruct (lower (task u) =? "sleep")%string.
      * destruct (0 <? time_until_upcoming_task_minutes scan);
          intros H; injection H as <- <-; auto.
      * intros H; injection H as <- <-; auto.
    + intros H; injection H as <- <-; auto.
  - intros H; injection H as <- <-; auto.
Qed.

(** X12. Notifications for the upcoming entry are not throttled: when no
    named entry is active, the decision does not depend on the state and
    leaves it unchanged, so an evaluation repeated at the same instant
    (a second tick, the manual trigger) decides the same notification
    again. *)
Theorem upcoming_decision_is_stateless cfg tt st now active scan st' d :
  resolve cfg tt now = Ok (active, scan) ->
  active_arm active = false ->
  policy_evaluation cfg tt st now = Ok (st', d) ->
  st' = st /\ forall st2, policy_evaluation cfg tt st2 now = Ok (st2, d).
Proof.
  intros Hres Harm H.
  rewrite (policy_evaluation_decide _ _ _ _ _ _ Hres) in H.
  destruct (decide_upcoming_stateless _ _ _ _ _ _ _ Harm H) as [-> Hall].
  split; [reflexivity|]. intros st2.
  rewrite (policy_evaluation_decide _ _ _ _ _ _ Hres). apply Hall.
Qed.

Lemma upcoming_decision_is_stateless_witness :
  let tz := TIMEZONE default_config in
  let work := load_entry (mk_raw "09:00" "Work" None None) in
  let now := combine tz 20000 8 50 0 in
  let d := Compose "Upcoming: Work"
             (upcoming_prompt no_specific_task work "in 10 minutes") in
  policy_evaluation default_config [work] (initial_state tz) now
  = Ok (initial_state tz, d)
  /\ policy_evaluation default_config [work] (mk_state now 2) now
     = Ok (mk_state now 2, d).
Proof.
  intros tz work now d.
  set (scan := mk_scan (Some work) (Some (combine tz 20000 9 0 0)) 10 false).
  assert (Hres : resolve default_config [work] now = Ok (None, scan))
    by (vm_compute; reflexivity).
  assert (H : policy_evaluation default_config [work] (initial_state tz) now
              = Ok (initial_state tz, d)) by (vm_compute; reflexivity).
  split; [exact H|].
  exact (proj2 (upcoming_decision_is_stateless default_config [work] (initial_state tz)
                  now None scan (initial_state tz) d Hres eq_refl H) (mk_state now 2)).
Defined.

Lemma sleep_is_named name :
  (lower name =? "sleep")%string = true ->
  (lower name =? no_specific_task)%string = false.
Proof.
  intros H. apply String.eqb_eq in H. rewrite H. reflexivity.
Qed.

(** X13. While an entry named "sleep" (in any letter case) is active and
    fewer than [max_sleep_notifications] sleep notifications were sent, the
    only notification decided is the sleep notification: no check-in is
    composed. Once the counter has reached the maximum the entry is treated
    like any other task: a check-in for it is composed whenever the
    interval has passed. *)
Theorem sleep_entry_decisions cfg st now e scan st' d :
  (lower (task e) =? "sleep")%string = true ->
  decide cfg st now (Some e) scan = Ok (st', d) ->
  (sleep_notification_count st < max_sleep_notifications ->
   d = NoNotification \/ d = Immediate sleep_title sleep_message)
  /\ (max_sleep_notifications <= sleep_notification_count st ->
      NOTIFICATION_INTERVAL_SECONDS cfg * usec_per_sec
        <= now - last_in_task_notification_time st ->
      d = Compose ("Check-in: " ++ task e)%string (check_in_prompt (task e) (notes e))
      /\ st' = mk_state now (sleep_notification_count st)).
Proof.
  intros Hsleep H. unfold decide in H.
  cbn [active_arm current_active_task_name_of] in H.
  rewrite (sleep_is_named _ Hsleep), Hsleep in H. cbn [negb andb] in H.
  split.
  - intros Hlt. apply Z.ltb_lt in Hlt. rewrite Hlt in H.
    destruct (read_task_dt_local scan); cbn [bind] in H; [|discriminate].
    destruct (sleep_fires _ _ _); injection H as <- <-; auto.
  - intros Hge Hdue.
    replace (sleep_notification_count st <? max_sleep_notifications) with false in H
      by (symmetry; apply Z.ltb_ge; exact Hge).
    apply Z.leb_le in Hdue. rewrite Hdue in H.
    injection H as <- <-. auto.
Qed.

Lemma sleep_entry_decisions_witness :
  let tz := TIMEZONE default_config in
  let sleep := load_entry (mk_raw "22:00" "Sleep" None (Some "lights out")) in
  let now := combine tz 20000 23 0 0 in
  let st := mk_state (combine tz 20000 22 15 0) 2 in
  let scan := mk_scan None (Some (combine tz 20000 22 0 0)) 0 false in
  decide default_config st now (Some sleep) scan
  = Ok (mk_state now 2,
        Compose "Check-in: Sleep" (check_in_prompt "Sleep" "lights out")).
Proof.
  intros tz sleep now st scan.
  assert (H : decide default_config st now (Some sleep) scan
              = Ok (mk_state now 2,
                    Compose "Check-in: Sleep" (check_in_prompt "Sleep" "lights out")))
    by (vm_compute; reflexivity).
  destruct (sleep_entry_decisions default_config st now sleep scan _ _ eq_refl H)
    as [_ Hmax].
  destruct Hmax as [Hd Hst].
  - vm_compute. discriminate.
  - vm_compute. discriminate.
  - rewrite Hd, Hst. reflexivity.
Defined.




(** ** LLMClient: attempts, delays and the value returned *)

Lemma backoff_delays_cons first n :
  backoff_delays first (S n) = 2 ^ Z.of_nat first :: backoff_delays (S first) n.
Proof. reflexivity. Qed.

Lemma llm_attempts_failures transport retries k : forall attempt remaining,
  (attempt + remaining = retries)%nat ->
  (k < remaining)%nat ->
  (forall n, (attempt <= n < attempt + k)%nat ->
             exists msg, transport n = RequestException msg) ->
  llm_attempts transport retries attempt remaining
  = (let '(delays, r) :=
       llm_attempts transport retries (attempt + k) (remaining - k) in
     ((backoff_delays attempt k ++ delays)%list, r)).
Proof.
  induction k as [|k IH]; intros attempt remaining Hsum Hk Hfail.
  - rewrite Nat.add_0_r, Nat.sub_0_r. simpl.
    now destruct (llm_attempts transport retries attempt remaining).
  - destruct remaining as [|remaining]; [lia|].
    cbn [llm_attempts].
    destruct (Hfail attempt) as [msg ->]; [lia|].
    replace (attempt <? retries - 1)%nat with true
      by (symmetry; apply Nat.ltb_lt; lia).
    rewrite (IH (S attempt) remaining); [|lia|lia|intros n Hn; apply Hfail; lia].
    replace (S attempt + k)%nat with (attempt + S k)%nat by lia.
    replace (S remaining - S k)%nat with (remaining - k)%nat by lia.
    destruct (llm_attempts transport retries (attempt + S k) (remaining - k)).
    now rewrite backoff_delays_cons.
Qed.

Lemma extract_content_well_formed body content :
  well_formed_body body content -> extract_content body = Ok (PStr content).
Proof.
  intros [kvs [first [rest [msg [-> [H1 [H2 H3]]]]]]].
  unfold extract_content. simpl. rewrite H1. simpl. rewrite H2. simpl.
  now rewrite H3.
Qed.

Lemma key_present_attempts key transport prompt retries :
  nonempty key = true ->
  get_llm_response (Some key) transport prompt retries
  = llm_attempts (transport prompt) retries 0 retries.
Proof. unfold get_llm_response. now intros ->. Qed.

(** X15. With the key set, when the first [k] attempts end in request
    errors and attempt [k] (counted from 0, below [retries]) gets a
    response, the client has slept 1, 2, 4, ... [2^(k-1)] seconds, one delay
    before each retry, and its result is what the body of that response
    gives; a body with a string at [choices[0].message.content] gives that
    string. Later attempts are not made. *)
Theorem response_after_retries key transport prompt retries k body :
  nonempty key = true ->
  (k < retries)%nat ->
  (forall n, (n < k)%nat -> exists msg, transport prompt n = RequestException msg) ->
  transport prompt k = Response body ->
  get_llm_response (Some key) transport prompt retries
    = (backoff_delays 0 k, extract_content body)
  /\ (forall content, well_formed_body body content ->
      get_llm_response (Some key) transport prompt retries
      = (backoff_delays 0 k, Ok (PStr content))).
Proof.
  intros Hkey Hk Hfail Hresp.
  assert (H : get_llm_response (Some key) transport prompt retries
              = (backoff_delays 0 k, extract_content body)).
  { rewrite (key_present_attempts _ _ _ _ Hkey).
    rewrite (llm_attempts_failures (transport prompt) retries k 0 retries);
      [|lia|exact Hk|intros n Hn; apply Hfail; lia].
    cbn [Nat.add].
    destruct (retries - k)%nat as [|r] eqn:Hr; [lia|].
    cbn [llm_attempts]. rewrite Hresp. now rewrite app_nil_r. }
  split; [exact H|].
  intros content Hwf. rewrite H. now rewrite (extract_content_well_formed _ _ Hwf).
Qed.

Lemma response_after_retries_witness :
  let body :=
    PDict [("id", PStr "gen-1");
           ("choices",
            PList [PDict [("index", PNum 0);
                          ("message", PDict [("role", PStr "assistant");
                                             ("content", PStr "Time to focus!")])]])] in
  let transport := fun (_ : string) (n : nat) =>
    match n with
    | 0%nat | 1%nat => RequestException "Connection reset"
    | _ => Response body
    end in
  get_llm_response (Some "sk-key") transport "prompt" 3
  = ([1; 2], Ok (PStr "Time to focus!")).
Proof.
  intros body transport.
  destruct (response_after_retries "sk-key" transport "prompt" 3 2 body)
    as [_ H].
  - reflexivity.
  - lia.
  - intros n Hn. exists "Connection reset".
    destruct n as [|[|n]]; [reflexivity | reflexivity | lia].
  - reflexivity.
  - apply H. unfold well_formed_body. do 4 eexists.
    split; [reflexivity|]. split; [reflexivity|]. split; reflexivity.
Defined.

(** X16. With the key set and [retries] at least 1, when every attempt
    ends in a request error the client makes exactly [retries] attempts,
    sleeping 1, 2, ... [2^(retries-2)] seconds between them and not after
    the last, and returns the diagnostic built from the error of the last
    attempt. *)
Theorem all_attempts_fail key transport prompt retries last_msg :
  nonempty key = true ->
  (0 < retries)%nat ->
  (forall n, (n < retries)%nat -> exists msg, transport prompt n = RequestException msg) ->
  transport prompt (retries - 1)%nat = RequestException last_msg ->
  get_llm_response (Some key) transport prompt retries
  = (backoff_delays 0 (retries - 1), Ok (PStr (api_error_text last_msg))).
Proof.
  intros Hkey Hpos Hfail Hlast.
  rewrite (key_present_attempts _ _ _ _ Hkey).
  rewrite (llm_attempts_failures (transport prompt) retries (retries - 1) 0 retries);
    [|lia|lia|intros n Hn; apply Hfail; lia].
  cbn [Nat.add].
  replace (retries - (retries - 1))%nat with 1%nat by lia.
  cbn [llm_attempts]. rewrite Hlast.
  replace (retries - 1 <? retries - 1)%nat with false
    by (symmetry; apply Nat.ltb_irrefl).
  now rewrite app_nil_r.
Qed.

Lemma all_attempts_fail_witness :
  get_llm_response (Some "sk-key") (fun _ _ => RequestException "Read timed out.")
    "prompt" 4
  = ([1; 2; 4], Ok (PStr (api_error_text "Read timed out."))).
Proof.
  apply (all_attempts_fail "sk-key" (fun _ _ => RequestException "Read timed out.")
           "prompt" 4 "Read timed out.").
  - reflexivity.
  - lia.
  - intros n _. now exists "Read timed out.".
  - reflexivity.
Defined.

Lemma llm_attempts_well_formed transport retries remaining : forall attempt,
  (forall n, (exists msg, transport n = RequestException msg)
             \/ (exists body content,
                   transport n = Response body /\ well_formed_body body content)) ->
  exists delays text,
    llm_attempts transport retries attempt remaining = (delays, Ok (PStr text)).
Proof.
  induction remaining as [|k IH]; intros attempt Hall; cbn [llm_attempts].
  - eauto.
  - destruct (Hall attempt) as [[msg ->]|[body [content [-> Hwf]]]].
    + destruct (attempt <? retries - 1)%nat; [|eauto].
      destruct (IH (S attempt) Hall) as [delays [text ->]]. eauto.
    + rewrite (extract_content_well_formed _ _ Hwf). eauto.
Qed.

(** X17. When every response that arrives has a string at
    [choices[0].message.content], the client does not raise: whatever the
    key, the number of retries and the mix of request errors and
    responses, it returns a string. *)
Theorem well_formed_responses_never_raise key transport prompt retries :
  (forall n, (exists msg, transport prompt n = RequestException msg)
             \/ (exists body content,
                   transport prompt n = Response body /\
                   well_formed_body body content)) ->
  exists delays text,
    get_llm_response key transport prompt retries = (delays, Ok (PStr text)).
Proof.
  intros Hall. unfold get_llm_response.
  destruct key as [k|]; [|eauto].
  destruct (nonempty k); [|eauto].
  now apply llm_attempts_well_formed.
Qed.

Lemma well_formed_responses_never_raise_witness :
  exists delays text,
    get_llm_response (Some "sk-key")
      (fun _ n => match n with
                  | 0%nat => RequestException "503 Server Error"
                  | _ => Response
                           (PDict [("choices",
                                    PList [PDict [("message",
                                                   PDict [("content", PStr "Go!")])]])])
                  end)
      "prompt" 3
    = (delays, Ok (PStr text)).
Proof.
  apply well_formed_responses_never_raise.
  intros [|n].
  - left. now exists "503 Server Error".
  - right. do 2 eexists. split; [reflexivity|].
    unfold well_formed_body. do 4 eexists.
    split; [reflexivity|]. split; [reflexivity|]. split; reflexivity.
Defined.

(** ** Notifier: the text that is shown *)

Lemma string_length_append (a b : string) :
  String.length (a ++ b)%string = (String.length a + String.length b)%nat.
Proof. induction a as [|c a IH]; simpl; [reflexivity | now rewrite IH]. Qed.

Lemma substring_0_length n : forall s,
  String.length (substring 0 n s) = Nat.min n (String.length s).
Proof.
  induction n as [|n IH]; intros [|c s]; simpl; try reflexivity.
  now rewrite IH.
Qed.





Lemma display_text_short message :
  (String.length message <= max_message_length)%nat -> display_text message = message.
Proof.
  intros H. unfold display_text.
  replace (max_message_length <? String.length message)%nat with false
    by (symmetry; apply Nat.ltb_ge; exact H).
  reflexivity.
Qed.



Lemma diagnostic_length text :
  is_diagnostic text -> (String.length text <= 93)%nat.
Proof.
  intros [->|[->|[msg ->]]]; [simpl; lia | simpl; lia |].
  unfold api_error_text. rewrite !string_length_append, substring_0_length.
  simpl String.length. lia.
Qed.

(** X19. The diagnostic strings of the composition client are short
    enough (at most 93 characters, the error text being cut to 50) to be
    shown in full: [send_notification] never truncates one. *)
Theorem diagnostic_is_shown_in_full title text desktop_ok :
  is_diagnostic text ->
  send_notification title (PStr text) desktop_ok
  = Ok ((if desktop_ok then Desktop else ConsoleFallback) title (PStr text)).
Proof.
  intros Hd. apply diagnostic_length in Hd.
  unfold send_notification, cut_message. cbn [bind].
  rewrite display_text_short; [now destruct desktop_ok|].
  unfold max_message_length. lia.
Qed.

Lemma diagnostic_is_shown_in_full_witness :
  let long_error :=
    "HTTPSConnectionPool(host='openrouter.ai', port=443): Max retries exceeded with url: /api/v1/chat/completions" in
  send_notification "Check-in: Work" (PStr (api_error_text long_error)) true
  = Ok (Desktop "Check-in: Work" (PStr (api_error_text long_error))).
Proof.
  intros long_error.
  apply (diagnostic_is_shown_in_full "Check-in: Work" (api_error_text long_error) true).
  right. right. now exists long_error.
Defined.

(** ** Journal: the daily summary *)

(** X21. On a composition failure (missing key, or every attempt ended in
    a request error) the journal receives one more entry, which holds the
    diagnostic text of the client; the sentence for a missing summary is
    not used. The entry is appended before the journal view is refreshed
    (line 282): when the refresh returns, the call returns the diagnostic
    text; when it raises, as it does once the window is destroyed (the call
    of line 448 follows [root.destroy()]), the call raises that exception
    and the entry is in the journal all the same. *)
Theorem daily_summary_on_failure key transport retries update_gui_journal
        date_text time_text journal day_summary :
  composition_failed key (transport (daily_summary_prompt date_text day_summary))
    retries ->
  exists text,
    is_diagnostic text
    /\ get_daily_summary (fun p => snd (get_llm_response key transport p retries))
         update_gui_journal date_text time_text journal day_summary
       = ((journal ++ [mk_daily time_text (PStr text)])%list,
          match update_gui_journal with
          | Ok _ => Ok (PStr text)
          | Raise e => Raise e
          end).
Proof.
  intros Hfail.
  destruct (get_llm_response_failed _ _ _ _ Hfail) as [text [Ht Hd]].
  exists text. split; [exact Hd|].
  unfold get_daily_summary. rewrite Ht.
  rewrite (diagnostic_truthy _ Hd).
  now destruct update_gui_journal.
Qed.

Lemma daily_summary_on_failure_witness :
  let llm := fun p => snd (get_llm_response None
                             (fun _ _ => RequestException "unused") p 3) in
  (exists text,
     is_diagnostic text
     /\ get_daily_summary llm (Raise TclError)
          "04-10-2024" "09:15 PM" [] "Worked, then rested."
        = ([mk_daily "09:15 PM" (PStr text)], Raise TclError))
  /\ (exists text,
        is_diagnostic text
        /\ get_daily_summary llm (Ok tt)
             "04-10-2024" "09:15 PM" [] "Worked, then rested."
           = ([mk_daily "09:15 PM" (PStr text)], Ok (PStr text))).
Proof.
  intros llm.
  assert (Hf : composition_failed None
                 ((fun (_ : string) (_ : nat) => RequestException "unused")
                    (daily_summary_prompt "04-10-2024" "Worked, then rested.")) 3)
    by (left; now left).
  split.
  - exact (daily_summary_on_failure None (fun _ _ => RequestException "unused") 3
             (Raise TclError) "04-10-2024" "09:15 PM" [] "Worked, then rested." Hf).
  - exact (daily_summary_on_failure None (fun _ _ => RequestException "unused") 3
             (Ok tt) "04-10-2024" "09:15 PM" [] "Worked, then rested." Hf).
Defined.

(** ** The scan when every entry has started *)

Lemma upcoming_loop_all_started cfg now horizon e s l0 : forall last,
  sub_minutes (TIMEZONE cfg) now (GRACE_MINUTES_AFTER_START cfg) = Ok horizon ->
  (forall x, In x (l0 ++ [e]) ->
     exists sx, task_start (TIMEZONE cfg) now x = Ok sx /\ sx < horizon) ->
  task_start (TIMEZONE cfg) now e = Ok s ->
  upcoming_loop cfg now last (l0 ++ [e]) = Ok (mk_scan None (Some s) 0 false).
Proof.
  induction l0 as [|x l0 IH]; intros last Hh Hall He.
  - cbn [app upcoming_loop]. rewrite He. cbn [bind]. rewrite Hh. cbn [bind].
    destruct (Hall e (or_introl eq_refl)) as [s' [He' Hlt]].
    rewrite He in He'. injection He' as <-.
    replace (s >=? horizon) with false
      by (symmetry; rewrite Z.geb_leb; apply Z.leb_gt; exact Hlt).
    reflexivity.
  - cbn [app upcoming_loop].
    destruct (Hall x (or_introl eq_refl)) as [sx [Hx Hlt]].
    rewrite Hx. cbn [bind]. rewrite Hh. cbn [bind].
    replace (sx >=? horizon) with false
      by (symmetry; rewrite Z.geb_leb; apply Z.leb_gt; exact Hlt).
    apply IH; [exact Hh | | exact He].
    intros y Hy. apply Hall. now right.
Qed.

(** X22. When the start the code computes lies more than the grace period
    before [now] for every entry, the scan finds no upcoming entry (the
    entries of the next day are not looked at) and leaves [task_dt_local]
    at the computed start of the last entry of the sorted timetable. If
    that entry is the active "sleep" entry, the sleep branch therefore
    measures the elapsed time from the start the code computed for that
    entry. Under the default zone Asia/Kolkata that start is 23 minutes
    before the entry's time of day on the clock: at 22:10, ten minutes into
    a sleep entry of 22:00, the elapsed time is 33 minutes and the
    follow-up notification is sent. *)
Theorem scan_after_last_start cfg tt now horizon l0 e s st :
  sorted_by_time tt = (l0 ++ [e])%list ->
  sub_minutes (TIMEZONE cfg) now (GRACE_MINUTES_AFTER_START cfg) = Ok horizon ->
  (forall x, In x tt ->
     exists sx, task_start (TIMEZONE cfg) now x = Ok sx /\ sx < horizon) ->
  task_start (TIMEZONE cfg) now e = Ok s ->
  upcoming_loop cfg now None (sorted_by_time tt) = Ok (mk_scan None (Some s) 0 false)
  /\ ((lower (task e) =? "sleep")%string = true ->
      sleep_notification_count st < max_sleep_notifications ->
      decide cfg st now (Some e) (mk_scan None (Some s) 0 false)
      = if sleep_fires now s (sleep_notification_count st)
        then Ok (mk_state now (sleep_notification_count st + 1),
                 Immediate sleep_title sleep_message)
        else Ok (st, NoNotification)).
Proof.
  intros Hsorted Hh Hall He. split.
  - rewrite Hsorted. apply (upcoming_loop_all_started cfg now horizon e s l0 None Hh);
      [|exact He].
    intros x Hx. apply Hall. apply (proj1 (sorted_by_time_in x tt)).
    now rewrite Hsorted.
  - intros Hsleep Hlt. unfold decide.
    cbn [active_arm current_active_task_name_of].
    rewrite (sleep_is_named _ Hsleep), Hsleep. cbn [negb andb].
    apply Z.ltb_lt in Hlt. rewrite Hlt.
    cbn [read_task_dt_local task_dt_local bind].
    now destruct (sleep_fires now s (sleep_notification_count st)).
Qed.

Lemma scan_after_last_start_witness :
  let work := load_entry (mk_raw "09:00" "Work" None None) in
  let sleep := load_entry (mk_raw "22:00" "Sleep" None None) in
  let now := at_clock IST 20000 22 10 0 in
  let start := at_clock IST 20000 21 37 0 in
  let st := mk_state start 1 in
  wall_now Asia_Kolkata now = wall_clock 20000 22 10 0
  /\ task_start Asia_Kolkata now sleep = Ok start
  /\ upcoming_loop default_config now None (sorted_by_time [sleep; work])
     = Ok (mk_scan None (Some start) 0 false)
  /\ decide default_config st now (Some sleep) (mk_scan None (Some start) 0 false)
     = Ok (mk_state now 2, Immediate sleep_title sleep_message).
Proof.
  intros work sleep now start st.
  split; [reflexivity|]. split; [reflexivity|].
  destruct (scan_after_last_start default_config [sleep; work] now
              (at_clock IST 20000 22 8 0) [work] sleep start st)
    as [Hscan Hdec].
  - reflexivity.
  - vm_compute. reflexivity.
  - intros x [<-|[<-|[]]]; eexists; (split; [reflexivity|]); vm_compute; reflexivity.
  - reflexivity.
  - split; [exact Hscan|].
    rewrite Hdec; [reflexivity | reflexivity | vm_compute; reflexivity].
Defined.

